(** * parse_join.py: fetching JoinRPG character data and exporting it

    A shallow embedding of [fetch_character_data] and
    [write_to_csv_with_pandas].  The script talks to three things that
    are not part of it: the file system, the remote HTTP API (through
    [requests]) and the [pandas]/[str] library functions.  They are
    gathered in a record [world]; every statement below quantifies over
    it, so it holds for every behaviour of these collaborators. *)

From Stdlib Require Import ZArith List String Ascii Bool Lia.
From Stdlib Require Import DecimalString.
Import ListNotations.
Set Warnings "-register-all".
Open Scope string_scope.
Open Scope Z_scope.

(** ** Python values

    What [yaml.safe_load] and [Response.json()] return: [None], booleans,
    integers, strings, lists and dicts with string keys.  A dict keeps its
    insertion order, so it is an association list.  Numbers are modelled
    by integers. *)

Inductive value : Type :=
| VNone
| VBool (b : bool)
| VInt (n : Z)
| VStr (s : string)
| VList (items : list value)
| VDict (fields : list (string * value)).

Definition dict := list (string * value).

(** [bool(v)]: the test behind [if not v]. *)
Definition truthy (v : value) : bool :=
  match v with
  | VNone => false
  | VBool b => b
  | VInt n => negb (n =? 0)
  | VStr s => negb (s =? "")%string
  | VList items => match items with [] => false | _ => true end
  | VDict fields => match fields with [] => false | _ => true end
  end.

Definition isinstance_list (v : value) : bool :=
  match v with VList _ => true | _ => false end.

Definition isinstance_dict (v : value) : bool :=
  match v with VDict _ => true | _ => false end.

Fixpoint lookup (k : string) (d : dict) : option value :=
  match d with
  | [] => None
  | (k', v) :: d' => if (k =? k')%string then Some v else lookup k d'
  end.

(** [d[k] = v]: replaces the value of an existing key in place, appends a
    new key at the end. *)
Fixpoint dict_set (k : string) (v : value) (d : dict) : dict :=
  match d with
  | [] => [(k, v)]
  | (k', v') :: d' =>
      if (k =? k')%string then (k, v) :: d' else (k', v') :: dict_set k v d'
  end.

Definition keys (d : dict) : list string := map fst d.

(** ** HTTP *)

Record response := {
  status_code : Z;
  text : string;
  json : option value   (* [None]: [.json()] raises a [ValueError] *)
}.

(** [Response.raise_for_status] raises [HTTPError] for the client and server
    error statuses, and [Response.ok] (also the truth value of a response)
    is the negation of that. *)
Definition raises_for_status (r : response) : bool :=
  (400 <=? status_code r) && (status_code r <? 600).

Definition ok (r : response) : bool := negb (raises_for_status r).

(** Failures of [Session.post] / [Session.get] themselves: no response was
    obtained.  They are [RequestException]s but none is an [HTTPError],
    which [requests] raises from [raise_for_status] only. *)
Inductive send_error :=
| ConnectionError
| ReadTimeout
| TooManyRedirects
| InvalidURL
| MissingSchema.

Inductive exn :=
| FileNotFoundError
| OSError                      (* any other failure of [open] *)
| YAMLError
| KeyError (key : string)
| TypeError
| AttributeError (name : string)
| ValueError
| IndexError
| HTTPError (r : response)
| RequestException (e : send_error)
| OtherException (what : string).

Inductive method := POST | GET.

Record request := {
  meth : method;
  url : value;
  data : option value;
  headers : list (string * string)
}.

(** ** The exported table

    A [DataFrame] as its column labels and its rows of cells; a cell is
    [None] where the frame holds NaN, which [to_csv] writes as an empty
    field.  How [to_csv] prints the other cells is not modelled. *)

Record table := {
  columns : list string;
  rows : list (list (option value))
}.

(** What [_simple_json_normalize] makes of a record: the flattened dict
    of a record that is a dict, the list of its normalised elements for a
    record that is a list.  A record that is neither (a number, a string, a
    boolean, [None]) is kept as it is: the library's versions differ on it
    (an empty dict in some, a [TypeError] in others). *)
Inductive normalised :=
| NDict (d : dict)
| NList (l : list normalised)
| NOther (v : value).

(** ** Log records and file-system effects *)

Inductive level := INFO | WARNING | ERROR.

(** [logger] is [logging.getLogger(__name__)]; the exporter logs through the
    root logger ([logging.info], [logging.error]). *)
Inductive logger_name := Root | Module_logger.

(** An f-string, as its literal pieces and interpolated values. *)
Inductive fragment :=
| Lit (s : string)
| Val (v : value)
| Err (e : exn).

Record log_record := {
  name : logger_name;
  levelname : level;
  msg : list fragment
}.

Inductive fs_event :=
| Written (path : string) (df : table)
| WriteFailed (path : string) (e : exn).

Record state := {
  sent : list request;      (* requests issued so far, oldest first *)
  log : list log_record;    (* records emitted so far, oldest first *)
  fs : list fs_event        (* output files written or attempted *)
}.

Definition initial : state := {| sent := []; log := []; fs := [] |}.

(** ** The collaborators *)

Record world := {
  (* [open(config_path)] followed by [yaml.safe_load] *)
  load_config : string -> exn + value;
  (* the remote API and the transport: the answer to a request, given the
     requests that came before it *)
  send : list request -> request -> send_error + response;
  (* [str(v)] for a list or a dict *)
  str_container : value -> string;
  (* [template.format] with keyword arguments *)
  str_format : string -> list (string * value) -> exn + string;
  (* what [json_normalize] gives, or raises, when some record is not a
     dict *)
  DataFrame_other : list normalised -> exn + table;
  (* whether [DataFrame.to_csv] fails on this path *)
  to_csv : string -> table -> option exn
}.

(** ** A state-and-exception monad *)

Definition M (A : Type) : Type := state -> (exn + A) * state.

Definition ret {A} (a : A) : M A := fun s => (inr a, s).

Definition raise {A} (e : exn) : M A := fun s => (inl e, s).

Definition bind {A B} (c : M A) (k : A -> M B) : M B :=
  fun s =>
    match c s with
    | (inr a, s') => k a s'
    | (inl e, s') => (inl e, s')
    end.

Definition lift {A} (r : exn + A) : M A :=
  match r with
  | inl e => raise e
  | inr a => ret a
  end.

Declare Scope monad_scope.
Delimit Scope monad_scope with monad.
Notation "x <- c ;; k" := (bind c (fun x => k))
  (at level 61, c at next level, right associativity) : monad_scope.
Notation "c ;; k" := (bind c (fun _ => k))
  (at level 61, right associativity) : monad_scope.
Open Scope monad_scope.

Definition emit (n : logger_name) (l : level) (m : list fragment) : M unit :=
  fun s => (inr tt,
            {| sent := sent s;
               log := log s ++ [{| name := n; levelname := l; msg := m |}];
               fs := fs s |}).

Definition record_fs (ev : fs_event) : M unit :=
  fun s => (inr tt, {| sent := sent s; log := log s; fs := fs s ++ [ev] |}).

(** ** Built-in operations on values *)

(** [v[key]] *)
Definition getitem (v : value) (key : string) : exn + value :=
  match v with
  | VDict d =>
      match lookup key d with
      | Some x => inr x
      | None => inl (KeyError key)
      end
  | _ => inl TypeError
  end.

(** [v.get(key)] *)
Definition get (v : value) (key : string) : exn + value :=
  match v with
  | VDict d =>
      match lookup key d with
      | Some x => inr x
      | None => inr VNone
      end
  | _ => inl (AttributeError "get")
  end.

Definition str_of_Z (n : Z) : string := NilZero.string_of_int (Z.to_int n).

(** [str(v)], as an f-string interpolates it; [container] renders lists
    and dicts. *)
Definition str_with (container : value -> string) (v : value) : string :=
  match v with
  | VNone => "None"
  | VBool true => "True"
  | VBool false => "False"
  | VInt n => str_of_Z n
  | VStr s => s
  | _ => container v
  end.

(** ** [pandas.json_normalize]

    The library is not part of the script; these definitions follow its
    [io/json/_normalize.py].  With only [data] given, [json_normalize] is
    [DataFrame(_simple_json_normalize(data))]; the separator is ["."]. *)

Definition sep : string := ".".

Fixpoint strip_prefix (p s : string) : option string :=
  match p, s with
  | EmptyString, _ => Some s
  | String a p', String b s' =>
      if Ascii.eqb a b then strip_prefix p' s' else None
  | String _ _, EmptyString => None
  end.

(** [s.removeprefix(p)] *)
Definition removeprefix (p s : string) : string :=
  match strip_prefix p s with
  | Some r => r
  | None => s
  end.

(** [_normalise_json]: walks nested dicts, building the key of each leaf
    from the keys on the way to it, and stores the leaf under that key. *)
Fixpoint normalise_json (data : value) (key_string : string)
    (normalized_dict : dict) {struct data} : dict :=
  match data with
  | VDict fields =>
      (fix items (l : list (string * value)) (nd : dict) {struct l} : dict :=
         match l with
         | [] => nd
         | (key, v) :: l' =>
             let new_key := key_string ++ sep ++ key in
             let new_key :=
               if (key_string =? "")%string then removeprefix sep new_key
               else new_key in
             items l' (normalise_json v new_key nd)
         end) fields normalized_dict
  | _ => dict_set key_string data normalized_dict
  end.

(** [{**a, **b}] *)
Definition dict_merge (a b : dict) : dict :=
  fold_left (fun acc kv => dict_set (fst kv) (snd kv) acc) b a.

(** [_normalise_json_ordered]: the top-level entries that are not dicts
    first, then the flattened nested ones. *)
Definition normalise_json_ordered (data : dict) : dict :=
  let top_dict_ := filter (fun kv => negb (isinstance_dict (snd kv))) data in
  let nested_dict_ :=
    normalise_json
      (VDict (filter (fun kv => isinstance_dict (snd kv)) data)) "" [] in
  dict_merge top_dict_ nested_dict_.

Fixpoint simple_json_normalize (ds : value) : normalised :=
  match ds with
  | VDict d => NDict (normalise_json_ordered d)
  | VList l => NList (map simple_json_normalize l)
  | _ => NOther ds
  end.

(** The [DataFrame] of a list of dicts: the columns are the keys in order
    of first appearance, a row has NaN where its dict lacks the key. *)

Definition add_column (cols : list string) (k : string) : list string :=
  if existsb (String.eqb k) cols then cols else cols ++ [k].

Definition union_columns (ds : list dict) : list string :=
  fold_left (fun cols d => fold_left add_column (keys d) cols) ds [].

Definition DataFrame_of_dicts (ds : list dict) : table :=
  let cols := union_columns ds in
  {| columns := cols;
     rows := map (fun d => map (fun c => lookup c d) cols) ds |}.

Fixpoint all_dicts (l : list normalised) : option (list dict) :=
  match l with
  | [] => Some []
  | NDict d :: l' =>
      match all_dicts l' with
      | Some ds => Some (d :: ds)
      | None => None
      end
  | NList _ :: _ => None
  | NOther _ :: _ => None
  end.

Section Program.

Variable w : world.

Definition str : value -> string := str_with (str_container w).

(** [v.format] with keyword arguments *)
Definition format (v : value) (kwargs : list (string * value)) : exn + string :=
  match v with
  | VStr template => str_format w template kwargs
  | _ => inl (AttributeError "format")
  end.

Definition logger_info := emit Module_logger INFO.
Definition logger_warning := emit Module_logger WARNING.
Definition logger_error := emit Module_logger ERROR.
Definition logging_info := emit Root INFO.
Definition logging_error := emit Root ERROR.

(** One call of the session: the request joins the trace whether or not it
    is answered; a transport failure is raised. *)
Definition session_request (rq : request) : M response :=
  fun s =>
    let s' := {| sent := sent s ++ [rq]; log := log s; fs := fs s |} in
    match send w (sent s) rq with
    | inl e => (inl (RequestException e), s')
    | inr r => (inr r, s')
    end.

Definition session_post (u : value) (d : value)
    (h : list (string * string)) : M response :=
  session_request {| meth := POST; url := u; data := Some d; headers := h |}.

Definition session_get (u : string) (h : list (string * string)) : M response :=
  session_request {| meth := GET; url := VStr u; data := None; headers := h |}.

Definition json_normalize (data : list value) : exn + table :=
  let normalised_json_list := map simple_json_normalize data in
  match all_dicts normalised_json_list with
  | Some ds => inr (DataFrame_of_dicts ds)
  | None => DataFrame_other w normalised_json_list
  end.

(** ** [write_to_csv_with_pandas] (lines 119-132)

    Whatever [json_normalize] or [to_csv] raises is caught and logged
    through the root logger. *)

Definition write_to_csv_with_pandas (data : list value)
    (output_file : string) : M unit :=
  match json_normalize data with
  | inl e => logging_error [Lit "Failed to write data to CSV: "; Err e]
  | inr df =>
      match to_csv w output_file df with
      | Some e =>
          record_fs (WriteFailed output_file e) ;;
          logging_error [Lit "Failed to write data to CSV: "; Err e]
      | None =>
          record_fs (Written output_file df) ;;
          logging_info [Lit "Data successfully written to ";
                        Val (VStr output_file)]
      end
  end.

(** ** [fetch_character_data] (lines 7-116) *)

(** The loop over [characters] (lines 87-110), with [all_character_data]
    as accumulator.  [continue] is the recursive call with the accumulator
    unchanged.  Only the [HTTPError] of [raise_for_status] and the
    [ValueError] of [.json()] are caught; what [.get] and [.format] raise
    leaves the loop. *)
Fixpoint fetch_details (character_details_url project_id : value)
    (headers : list (string * string)) (characters : list value)
    (all_character_data : list value) : M (list value) :=
  match characters with
  | [] => ret all_character_data
  | character :: rest =>
      let continue := fetch_details character_details_url project_id headers
                        rest in
      character_id <- lift (get character "characterId") ;;
      if negb (truthy character_id) then
        logger_warning [Lit "Character ID not found in the character data."] ;;
        continue all_character_data
      else
        logger_info [Lit "Fetching details for character ID ";
                     Val character_id; Lit "..."] ;;
        u <- lift (format character_details_url
                     [("projectId", project_id);
                      ("characterId", character_id)]) ;;
        details_response <- session_get u headers ;;
        if raises_for_status details_response then
          logger_error [Lit "Failed to fetch details for character ID ";
                        Val character_id; Lit ": ";
                        Err (HTTPError details_response)] ;;
          logger_error [Lit "Response content: ";
                        Val (VStr (text details_response))] ;;
          continue all_character_data
        else
          match json details_response with
          | Some character_data =>
              continue (all_character_data ++ [character_data])%list
          | None =>
              logger_error [Lit "Failed to decode JSON for character ID ";
                            Val character_id; Lit "."] ;;
              continue all_character_data
          end
  end.

(** The body of the function.  A [return] ends the branch it is in.  The
    caught exceptions are [FileNotFoundError] for the configuration,
    [HTTPError] for the three status checks and [ValueError] for decoding
    the authentication body; the list body is decoded outside any [try]. *)
Definition fetch_character_data (config_path output_file : string) : M unit :=
  match load_config w config_path with
  | inl FileNotFoundError =>
      logger_error [Lit "Configuration file not found at ";
                    Val (VStr config_path); Lit "."]
  | inl e => raise e
  | inr config =>
      auth_url <- lift (getitem config "auth_url") ;;
      login_data <- lift (getitem config "login_data") ;;
      characters_url <- lift (getitem config "characters_url") ;;
      character_details_url <- lift (getitem config "character_details_url") ;;
      project_id <- lift (getitem config "project_id") ;;
      logger_info [Lit "Authenticating..."] ;;
      auth_response <-
        session_post auth_url login_data
          [("Content-Type", "application/x-www-form-urlencoded")] ;;
      if raises_for_status auth_response then
        logger_error [Lit "Authentication failed: ";
                      Err (HTTPError auth_response)] ;;
        logger_error [Lit "Status code: ";
                      if ok auth_response
                      then Val (VInt (status_code auth_response))
                      else Val (VStr "No response")] ;;
        logger_error [Lit "Response content: ";
                      if ok auth_response
                      then Val (VStr (text auth_response))
                      else Val (VStr "No response")]
      else
        match json auth_response with
        | None =>
            logger_error [Lit "Failed to decode JSON response."] ;;
            logger_error [Lit "Response content: ";
                          Val (VStr (text auth_response))]
        | Some body =>
            token <- lift (get body "access_token") ;;
            if negb (truthy token) then
              logger_error
                [Lit "Authentication failed: No access_token received."] ;;
              logger_error [Lit "Response content: ";
                            Val (VStr (text auth_response))]
            else
              let headers := [("Authorization", "Bearer " ++ str token)] in
              logger_info [Lit "Fetching character IDs..."] ;;
              u <- lift (format characters_url [("projectId", project_id)]) ;;
              response <- session_get u headers ;;
              if raises_for_status response then
                logger_error [Lit "Failed to fetch character IDs: ";
                              Err (HTTPError response)] ;;
                logger_error [Lit "Response content: ";
                              Val (VStr (text response))]
              else
                characters <- lift (match json response with
                                    | Some v => inr v
                                    | None => inl ValueError
                                    end) ;;
                match characters with
                | VList [] => logger_info [Lit "No characters found."]
                | VList items =>
                    all_character_data <-
                      fetch_details character_details_url project_id headers
                        items [] ;;
                    match all_character_data with
                    | _ :: _ =>
                        write_to_csv_with_pandas all_character_data output_file
                    | [] =>
                        logger_info
                          [Lit "No character data available to write."]
                    end
                | _ =>
                    logger_error
                      [Lit "Unexpected data format received for characters."]
                end
        end
  end.

(** The script run directly (lines 135-140). *)
Definition CONFIG_PATH : string := "parse_config.yaml".
Definition OUTPUT_FILE : string := "output.csv".

Definition main : M unit := fetch_character_data CONFIG_PATH OUTPUT_FILE.

End Program.

Arguments fetch_details w character_details_url project_id headers
  characters all_character_data : simpl nomatch.

(** ** A scripted world for concrete runs

    The configuration file holds [config]; the n-th request of the run is
    answered by the n-th entry of [script], and by 404 once the script is
    used up; writing the output succeeds. *)

(** [str.format] on templates whose replacement fields are plain keyword
    names, without brace escapes, conversions or format specifications. *)
Fixpoint format_named_fields (kwargs : list (string * value))
    (field : option string) (template : string) : exn + string :=
  match template with
  | EmptyString =>
      match field with
      | None => inr ""
      | Some _ => inl ValueError
      end
  | String c rest =>
      match field with
      | None =>
          if Ascii.eqb c "{" then format_named_fields kwargs (Some "") rest
          else if Ascii.eqb c "}" then inl ValueError
          else match format_named_fields kwargs None rest with
               | inr out => inr (String c out)
               | inl e => inl e
               end
      | Some f =>
          if Ascii.eqb c "}" then
            match lookup f kwargs with
            | Some v =>
                match format_named_fields kwargs None rest with
                | inr out => inr (str_with (fun _ => "") v ++ out)
                | inl e => inl e
                end
            | None => inl (KeyError f)
            end
          else format_named_fields kwargs (Some (f ++ String c "")) rest
      end
  end.

Definition not_found : send_error + response :=
  inr {| status_code := 404; text := "Not Found"; json := None |}.

Definition scripted (config : exn + value)
    (script : list (send_error + response)) : world :=
  {| load_config := fun _ => config;
     send := fun trace _ => nth (List.length trace) script not_found;
     str_container := fun _ => "";
     str_format := fun template kwargs =>
                     format_named_fields kwargs None template;
     DataFrame_other := fun _ => inl (OtherException "DataFrame");
     to_csv := fun _ _ => None |}.

Definition sample_config : value :=
  VDict [("auth_url", VStr "https://joinrpg.ru/x-api/token");
         ("login_data", VDict [("grant_type", VStr "password");
                               ("username", VStr "user");
                               ("password", VStr "secret")]);
         ("characters_url",
          VStr "https://joinrpg.ru/x-game-api/{projectId}/characters");
         ("character_details_url",
          VStr "https://joinrpg.ru/x-game-api/{projectId}/characters/{characterId}");
         ("project_id", VInt 42)].

Definition json_response (status : Z) (body : value) : send_error + response :=
  inr {| status_code := status; text := "<json>"; json := Some body |}.

Definition text_response (status : Z) (t : string) : send_error + response :=
  inr {| status_code := status; text := t; json := None |}.

Definition summary (id : Z) : value := VDict [("characterId", VInt id)].

Definition token_response : send_error + response :=
  json_response 200 (VDict [("access_token", VStr "T0K3N")]).

(** Three characters; the detail request of the second is answered 500. *)
Definition second_fails : world :=
  scripted (inr sample_config)
    [token_response;
     json_response 200 (VList [summary 1; summary 2; summary 3]);
     json_response 200 (VDict [("id", VInt 1); ("name", VStr "A")]);
     text_response 500 "Internal Server Error";
     json_response 200 (VDict [("id", VInt 3);
                               ("stats", VDict [("hp", VInt 10)])])].


(** ** The detail fetcher, as the specification words it

    Each summary is classified as one of the four outcomes of section 4.4:
    no identifier, HTTP failure, undecodable body, or a fetched record.  The
    result is [None] when an item fails in some other way: the summary is
    not an object, the URL template does not format, or the request gets
    no response. *)

Inductive outcome :=
| NoIdentifier
| HttpFailure (character_id : value) (rq : request) (r : response)
| DecodeFailure (character_id : value) (rq : request) (r : response)
| Fetched (character_id : value) (rq : request) (r : response)
    (record : value).

Section Outcomes.

Variable w : world.
Variables character_details_url project_id : value.
Variable auth_headers : list (string * string).

Definition detail_request (character_id : value) : exn + request :=
  match format w character_details_url
          [("projectId", project_id); ("characterId", character_id)] with
  | inr u =>
      inr {| meth := GET; url := VStr u; data := None;
             headers := auth_headers |}
  | inl e => inl e
  end.

Definition classify (character_id : value) (rq : request) (r : response)
  : outcome :=
  if raises_for_status r then HttpFailure character_id rq r
  else match json r with
       | Some record => Fetched character_id rq r record
       | None => DecodeFailure character_id rq r
       end.

Fixpoint spec_outcomes (trace : list request) (characters : list value)
  : option (list outcome) :=
  match characters with
  | [] => Some []
  | VDict fields :: rest =>
      match lookup "characterId" fields with
      | Some character_id =>
          if truthy character_id then
            match detail_request character_id with
            | inr rq =>
                match send w trace rq with
                | inr r =>
                    option_map (cons (classify character_id rq r))
                      (spec_outcomes (trace ++ [rq]) rest)
                | inl _ => None
                end
            | inl _ => None
            end
          else option_map (cons NoIdentifier) (spec_outcomes trace rest)
      | None => option_map (cons NoIdentifier) (spec_outcomes trace rest)
      end
  | _ :: _ => None
  end.

End Outcomes.

(** The successfully fetched records, in order. *)
Definition fetched (os : list outcome) : list value :=
  flat_map (fun o => match o with
                     | Fetched _ _ _ record => [record]
                     | _ => []
                     end) os.

(** The detail requests behind a list of outcomes. *)
Definition requests_of (os : list outcome) : list request :=
  flat_map (fun o => match o with
                     | NoIdentifier => []
                     | HttpFailure _ rq _ => [rq]
                     | DecodeFailure _ rq _ => [rq]
                     | Fetched _ rq _ _ => [rq]
                     end) os.

Definition module_record (l : level) (m : list fragment) : log_record :=
  {| name := Module_logger; levelname := l; msg := m |}.

Definition fetching_record (character_id : value) : log_record :=
  module_record INFO [Lit "Fetching details for character ID ";
                      Val character_id; Lit "..."].

(** What each outcome leaves in the log. *)
Definition outcome_log (o : outcome) : list log_record :=
  match o with
  | NoIdentifier =>
      [module_record WARNING
         [Lit "Character ID not found in the character data."]]
  | HttpFailure character_id _ r =>
      [fetching_record character_id;
       module_record ERROR [Lit "Failed to fetch details for character ID ";
                            Val character_id; Lit ": "; Err (HTTPError r)];
       module_record ERROR [Lit "Response content: "; Val (VStr (text r))]]
  | DecodeFailure character_id _ _ =>
      [fetching_record character_id;
       module_record ERROR [Lit "Failed to decode JSON for character ID ";
                            Val character_id; Lit "."]]
  | Fetched character_id _ _ _ => [fetching_record character_id]
  end.

Definition is_failure (o : outcome) : bool :=
  match o with
  | Fetched _ _ _ _ => false
  | _ => true
  end.

(** A failure is reported at WARNING or ERROR level. *)
Definition reported (o : outcome) : bool :=
  existsb (fun r => match levelname r with INFO => false | _ => true end)
    (outcome_log o).

(** ** Flattening, as the specification words it

    The dotted path of every leaf: the keys on the way to a value that is
    not a mapping, joined by dots. *)

Fixpoint leaf_paths (v : value) : list (list string) :=
  match v with
  | VDict fields =>
      flat_map (fun kv => map (cons (fst kv)) (leaf_paths (snd kv))) fields
  | _ => [[]]
  end.

Definition dotted (path : list string) : string := String.concat "." path.

Definition spec_columns (record : dict) : list string :=
  map dotted (leaf_paths (VDict record)).

(** The cell of the row of record [d] in column [c]. *)
Definition cell (df : table) (i : nat) (c : string) : option value :=
  match nth_error (rows df) i with
  | Some row =>
      (fix pick (cols : list string) (cells : list (option value)) :=
         match cols, cells with
         | c' :: cols', x :: cells' =>
             if (c =? c')%string then x else pick cols' cells'
         | _, _ => None
         end) (columns df) row
  | None => None
  end.

(** The key [_normalise_json] builds for the leaf at [path], started from
    [key_string]. *)
Fixpoint key_at (key_string : string) (path : list string) : string :=
  match path with
  | [] => key_string
  | key :: path' =>
      let new_key := (key_string ++ sep ++ key)%string in
      key_at (if (key_string =? "")%string then removeprefix sep new_key
              else new_key) path'
  end.

(** ** Stages of a run

    Names for what the statements below assume about the steps before the
    one they describe. *)

Record settings := {
  cfg_auth_url : value;
  cfg_login_data : value;
  cfg_characters_url : value;
  cfg_character_details_url : value;
  cfg_project_id : value
}.

(** The configuration file loads and holds the five keys. *)
Definition configured (w : world) (config_path : string) (c : settings)
  : Prop :=
  exists config,
    load_config w config_path = inr config /\
    getitem config "auth_url" = inr (cfg_auth_url c) /\
    getitem config "login_data" = inr (cfg_login_data c) /\
    getitem config "characters_url" = inr (cfg_characters_url c) /\
    getitem config "character_details_url"
      = inr (cfg_character_details_url c) /\
    getitem config "project_id" = inr (cfg_project_id c).

Definition auth_request (c : settings) : request :=
  {| meth := POST;
     url := cfg_auth_url c;
     data := Some (cfg_login_data c);
     headers := [("Content-Type", "application/x-www-form-urlencoded")] |}.

Definition bearer (w : world) (token : value) : list (string * string) :=
  [("Authorization", "Bearer " ++ str w token)].

(** The authentication request, sent after [trace], is answered with a
    usable token. *)
Definition authenticated (w : world) (c : settings) (trace : list request)
    (token : value) : Prop :=
  exists r body,
    send w trace (auth_request c) = inr r /\
    raises_for_status r = false /\
    json r = Some body /\
    get body "access_token" = inr token /\
    truthy token = true.

Definition list_request (w : world) (c : settings) (token : value)
  : exn + request :=
  match format w (cfg_characters_url c)
          [("projectId", cfg_project_id c)] with
  | inr u =>
      inr {| meth := GET; url := VStr u; data := None;
             headers := bearer w token |}
  | inl e => inl e
  end.

(** The character-list request, sent after the authentication, is answered
    by [r]. *)
Definition listed (w : world) (c : settings) (trace : list request)
    (token : value) (rq : request) (r : response) : Prop :=
  list_request w c token = inr rq /\
  send w (trace ++ [auth_request c])%list rq = inr r.

Definition authenticating_record : log_record :=
  module_record INFO [Lit "Authenticating..."].

Definition fetching_ids_record : log_record :=
  module_record INFO [Lit "Fetching character IDs..."].

(** ** What the loop can change

    However it ends, the loop sends GET requests that carry [auth_headers],
    logs through the module logger and leaves the file system alone. *)

Definition authorised (auth_headers : list (string * string))
    (rq : request) : Prop :=
  meth rq = GET /\ headers rq = auth_headers.

Definition fetches_only (auth_headers : list (string * string))
    (s s' : state) : Prop :=
  fs s' = fs s /\
  (exists new,
      sent s' = (sent s ++ new)%list /\
      Forall (authorised auth_headers) new) /\
  (exists records,
      log s' = (log s ++ records)%list /\
      Forall (fun r => name r = Module_logger) records).

(** ** The requests of a run

    A run sends nothing, or the authentication request alone, or the
    authentication request followed by GET requests that all carry the
    bearer header of the token it obtained. *)

Inductive trace_shape (w : world) (s s' : state) : Prop :=
| No_request : sent s' = sent s -> trace_shape w s s'
| Only_authentication (c : settings) :
    sent s' = (sent s ++ [auth_request c])%list -> trace_shape w s s'
| Authenticated_requests (c : settings) (token : value)
    (gets : list request) :
    authenticated w c (sent s) token ->
    sent s' = (sent s ++ auth_request c :: gets)%list ->
    Forall (authorised (bearer w token)) gets ->
    trace_shape w s s'.

(** ** Sample data *)

Definition details_template : value :=
  VStr "https://joinrpg.ru/x-game-api/{projectId}/characters/{characterId}".

Definition record_1 : value := VDict [("id", VInt 1); ("name", VStr "A")].
Definition record_3 : value :=
  VDict [("id", VInt 3); ("stats", VDict [("hp", VInt 10)])].

Definition sample_settings : settings :=
  {| cfg_auth_url := VStr "https://joinrpg.ru/x-api/token";
     cfg_login_data := VDict [("grant_type", VStr "password");
                              ("username", VStr "user");
                              ("password", VStr "secret")];
     cfg_characters_url :=
       VStr "https://joinrpg.ru/x-game-api/{projectId}/characters";
     cfg_character_details_url := details_template;
     cfg_project_id := VInt 42 |}.

(** The detail requests of three characters, the second answered 500. *)
Definition details_second_fails : world :=
  scripted (inr sample_config)
    [json_response 200 record_1;
     text_response 500 "Internal Server Error";
     json_response 200 record_3].

(** The character-list response of a run that authenticated, in the
    scripted world. *)
Definition list_answer (answer : send_error + response) : world :=
  scripted (inr sample_config) [token_response; answer].

(** ** Vocabulary for the further properties *)

(** The file a file-system event concerns. *)
Definition event_path (ev : fs_event) : string :=
  match ev with
  | Written path _ => path
  | WriteFailed path _ => path
  end.

(** The keys [fetch_character_data] reads from the configuration, in the
    order of lines 27-31. *)
Definition required_keys : list string :=
  ["auth_url"; "login_data"; "characters_url"; "character_details_url";
   "project_id"].

Definition has_key (k : string) (d : dict) : bool :=
  match lookup k d with
  | Some _ => true
  | None => false
  end.

(** The first required key that the configuration lacks. *)
Definition first_missing (fields : dict) : option string :=
  find (fun k => negb (has_key k fields)) required_keys.

(** * Properties *)

Open Scope list_scope.

Example second_fails_run :
  let '(result, final) := main second_fails initial in
  result = inr tt /\
  map url (sent final) =
    [VStr "https://joinrpg.ru/x-api/token";
     VStr "https://joinrpg.ru/x-game-api/42/characters";
     VStr "https://joinrpg.ru/x-game-api/42/characters/1";
     VStr "https://joinrpg.ru/x-game-api/42/characters/2";
     VStr "https://joinrpg.ru/x-game-api/42/characters/3"] /\
  fs final =
    [Written "output.csv"
       {| columns := ["id"; "name"; "stats.hp"];
          rows := [[Some (VInt 1); Some (VStr "A"); None];
                   [Some (VInt 3); None; Some (VInt 10)]] |}].
Proof. vm_compute. repeat split. Qed.

(** ** The monad and the state *)

Lemma state_eta (s : state) :
  {| sent := sent s; log := log s; fs := fs s |} = s.
Proof. destruct s; reflexivity. Qed.

Lemma bind_ret {A B} (a : A) (k : A -> M B) (s : state) :
  bind (ret a) k s = k a s.
Proof. reflexivity. Qed.

Lemma bind_raise {A B} (e : exn) (k : A -> M B) (s : state) :
  bind (raise e) k s = (inl e, s).
Proof. reflexivity. Qed.

Lemma bind_emit {B} n l m (k : unit -> M B) (s : state) :
  bind (emit n l m) k s =
  k tt {| sent := sent s;
          log := log s ++ [{| name := n; levelname := l; msg := m |}];
          fs := fs s |}.
Proof. reflexivity. Qed.

Lemma emit_eq n l m (s : state) :
  emit n l m s =
  (inr tt,
   {| sent := sent s;
      log := log s ++ [{| name := n; levelname := l; msg := m |}];
      fs := fs s |}).
Proof. reflexivity. Qed.

Lemma bind_session_get {B} (w : world) u h (k : response -> M B) s :
  bind (session_get w u h) k s =
  let rq := {| meth := GET; url := VStr u; data := None; headers := h |} in
  let s' := {| sent := sent s ++ [rq]; log := log s; fs := fs s |} in
  match send w (sent s) rq with
  | inl e => (inl (RequestException e), s')
  | inr r => k r s'
  end.
Proof.
  unfold bind, session_get, session_request; cbn.
  destruct (send w (sent s) _); reflexivity.
Qed.

Lemma bind_session_post {B} (w : world) u d h (k : response -> M B) s :
  bind (session_post w u d h) k s =
  let rq := {| meth := POST; url := u; data := Some d; headers := h |} in
  let s' := {| sent := sent s ++ [rq]; log := log s; fs := fs s |} in
  match send w (sent s) rq with
  | inl e => (inl (RequestException e), s')
  | inr r => k r s'
  end.
Proof.
  unfold bind, session_post, session_request; cbn.
  destruct (send w (sent s) _); reflexivity.
Qed.

Ltac monad_simpl :=
  repeat (unfold logger_info, logger_warning, logger_error, logging_info,
            logging_error, lift;
          rewrite ?bind_ret, ?bind_raise, ?bind_emit, ?emit_eq,
            ?bind_session_get, ?bind_session_post;
          cbn [sent log fs]).

(** ** The detail fetcher *)

Section DetailFetcher.

Variable w : world.
Variables character_details_url project_id : value.
Variable auth_headers : list (string * string).

Let loop := fetch_details w character_details_url project_id auth_headers.
Let outcomes := spec_outcomes w character_details_url project_id auth_headers.

Lemma fetch_details_outcomes (characters : list value) :
  forall os all_character_data s,
    outcomes (sent s) characters = Some os ->
    loop characters all_character_data s =
      (inr (all_character_data ++ fetched os)%list,
       {| sent := sent s ++ requests_of os;
          log := log s ++ flat_map outcome_log os;
          fs := fs s |}).
Proof.
  subst loop outcomes.
  induction characters as [|character rest IH]; intros os acc s H.
  - inversion H; subst; cbn. rewrite !app_nil_r, state_eta. reflexivity.
  - destruct character as [| | | | |fields]; try discriminate H.
    cbn in H. cbn [fetch_details get].
    assert (skip : forall os',
      option_map (cons NoIdentifier)
        (spec_outcomes w character_details_url project_id auth_headers
           (sent s) rest) = Some os' ->
      (logger_warning [Lit "Character ID not found in the character data."] ;;
       fetch_details w character_details_url project_id auth_headers rest acc)
        s =
      (inr (acc ++ fetched os')%list,
       {| sent := sent s ++ requests_of os';
          log := log s ++ flat_map outcome_log os';
          fs := fs s |})).
    { intros os' H'.
      destruct (spec_outcomes _ _ _ _ (sent s) rest) as [os0|] eqn:E;
        [|discriminate H'].
      inversion H'; subst os'. monad_simpl.
      rewrite (IH os0) by exact E. cbn.
      rewrite <- app_assoc. reflexivity. }
    destruct (lookup "characterId" fields) as [character_id|];
      monad_simpl; cbn [truthy negb]; [|apply skip, H].
    destruct (truthy character_id); cbn [negb]; [|apply skip, H].
    clear skip. unfold detail_request in H. monad_simpl.
    destruct (format w character_details_url _) as [e|u];
      [discriminate H|]. monad_simpl. cbv zeta.
    destruct (send w (sent s) _) as [e|r] eqn:Esend; [discriminate H|].
    destruct (spec_outcomes _ _ _ _ (sent s ++ _) rest) as [os0|] eqn:E;
      [|discriminate H].
    inversion H; subst os; clear H. unfold classify.
    destruct (raises_for_status r).
    + monad_simpl. rewrite (IH os0) by exact E. cbn.
      rewrite <- !app_assoc. reflexivity.
    + destruct (json r) as [record|].
      * rewrite (IH os0) by exact E. cbn.
        rewrite <- !app_assoc. reflexivity.
      * monad_simpl. rewrite (IH os0) by exact E. cbn.
        rewrite <- !app_assoc. reflexivity.
Qed.

(** One iteration of the loop, for a summary that is an object. *)
Lemma fetch_details_cons (fields : list (string * value)) rest acc s :
  loop (VDict fields :: rest) acc s =
  let character_id :=
    match lookup "characterId" fields with Some x => x | None => VNone end in
  if truthy character_id then
    let s1 := {| sent := sent s;
                 log := log s ++ [fetching_record character_id];
                 fs := fs s |} in
    match detail_request w character_details_url project_id auth_headers
            character_id with
    | inl e => (inl e, s1)
    | inr rq =>
        let s2 := {| sent := sent s ++ [rq]; log := log s1; fs := fs s |} in
        match send w (sent s) rq with
        | inl e => (inl (RequestException e), s2)
        | inr r =>
            match classify character_id rq r with
            | Fetched _ _ _ record => loop rest (acc ++ [record])%list s2
            | o =>
                loop rest acc
                  {| sent := sent s2;
                     log := log s ++ outcome_log o;
                     fs := fs s |}
            end
        end
    end
  else
    loop rest acc
      {| sent := sent s; log := log s ++ outcome_log NoIdentifier;
         fs := fs s |}.
Proof.
  subst loop. cbn [fetch_details get]. cbv zeta.
  destruct (lookup "characterId" fields) as [character_id|]; monad_simpl;
    cbn [truthy negb]; [|reflexivity].
  destruct (truthy character_id); cbn [negb]; monad_simpl; [|reflexivity].
  unfold detail_request.
  destruct (format w character_details_url _) as [e|u]; monad_simpl;
    [reflexivity|]. cbv zeta.
  destruct (send w (sent s) _) as [e|r]; [reflexivity|].
  unfold classify. destruct (raises_for_status r); monad_simpl.
  - cbn. rewrite <- !app_assoc. reflexivity.
  - destruct (json r); monad_simpl; [reflexivity|].
    cbn. rewrite <- !app_assoc. reflexivity.
Qed.

Lemma fetches_only_refl s : fetches_only auth_headers s s.
Proof.
  split; [reflexivity|split]; exists []; rewrite app_nil_r; split; auto.
Qed.

Lemma fetches_only_trans s1 s2 s3 :
  fetches_only auth_headers s1 s2 ->
  fetches_only auth_headers s2 s3 ->
  fetches_only auth_headers s1 s3.
Proof.
  intros (F1 & (n1 & S1 & A1) & (r1 & L1 & N1))
         (F2 & (n2 & S2 & A2) & (r2 & L2 & N2)).
  split; [congruence|split].
  - exists (n1 ++ n2). rewrite S2, S1, app_assoc. split; [reflexivity|].
    apply Forall_app; auto.
  - exists (r1 ++ r2). rewrite L2, L1, app_assoc. split; [reflexivity|].
    apply Forall_app; auto.
Qed.

Lemma fetches_only_step s new records :
  Forall (authorised auth_headers) new ->
  Forall (fun r => name r = Module_logger) records ->
  fetches_only auth_headers s
    {| sent := sent s ++ new; log := log s ++ records; fs := fs s |}.
Proof.
  intros A N.
  split; [reflexivity|split]; [exists new|exists records]; cbn; auto.
Qed.

Lemma detail_request_authorised character_id rq :
  detail_request w character_details_url project_id auth_headers
    character_id = inr rq ->
  authorised auth_headers rq.
Proof.
  unfold detail_request.
  destruct (format w _ _); intros H; inversion H; subst; split; reflexivity.
Qed.

Lemma outcome_log_module o :
  Forall (fun r => name r = Module_logger) (outcome_log o).
Proof. destruct o; repeat constructor. Qed.

Lemma fetch_details_frame (characters : list value) :
  forall acc s result s',
    loop characters acc s = (result, s') ->
    fetches_only auth_headers s s' /\
    (forall collected, result = inr collected ->
       exists more, collected = acc ++ more).
Proof.
  induction characters as [|character rest IH]; intros acc s result s' H.
  - subst loop. cbn in H. inversion H; subst.
    split; [apply fetches_only_refl|].
    intros c Hc. inversion Hc. exists []. now rewrite app_nil_r.
  - destruct character as [| | | | |fields];
      try (subst loop; cbn in H; inversion H; subst;
           split; [apply fetches_only_refl|intros c Hc; discriminate Hc]).
    rewrite fetch_details_cons in H. cbv zeta in H.
    set (character_id := match lookup "characterId" fields with
                         | Some x => x | None => VNone end) in *.
    destruct (truthy character_id).
    + destruct (detail_request _ _ _ _ character_id) as [e|rq] eqn:Erq.
      { inversion H; subst. split; [|intros c Hc; discriminate Hc].
        rewrite <- (app_nil_r (sent s)).
        apply fetches_only_step; repeat constructor. }
      pose proof (detail_request_authorised _ _ Erq) as Arq.
      destruct (send w (sent s) rq) as [e|r].
      { inversion H; subst. split; [|intros c Hc; discriminate Hc].
        apply fetches_only_step; repeat constructor; apply Arq. }
      destruct (classify character_id rq r) eqn:Ecl;
        apply IH in H; destruct H as [E C]; cbn [sent log fs] in E.
      * split; [|exact C]. eapply fetches_only_trans; [|exact E].
        apply fetches_only_step; repeat constructor; apply Arq.
      * split; [|exact C]. eapply fetches_only_trans; [|exact E].
        apply fetches_only_step; repeat constructor; apply Arq.
      * split; [|exact C]. eapply fetches_only_trans; [|exact E].
        apply fetches_only_step; repeat constructor; apply Arq.
      * split.
        -- eapply fetches_only_trans; [|exact E].
           apply fetches_only_step; repeat constructor; apply Arq.
        -- intros c Hc. destruct (C c Hc) as [more ->].
           exists (record :: more). now rewrite <- app_assoc.
    + apply IH in H. destruct H as [E C]. split; [|exact C].
      eapply fetches_only_trans; [|exact E].
      rewrite <- (app_nil_r (sent s)).
      apply fetches_only_step; repeat constructor.
Qed.

End DetailFetcher.

Lemma spec_outcomes_length w character_details_url project_id auth_headers
    (characters : list value) :
  forall trace os,
    spec_outcomes w character_details_url project_id auth_headers trace
      characters = Some os ->
    List.length os = List.length characters.
Proof.
  induction characters as [|character rest IH]; intros trace os H.
  - inversion H; reflexivity.
  - destruct character as [| | | | |fields]; try discriminate H.
    cbn in H.
    assert (tail : forall o tr,
      option_map (cons o)
        (spec_outcomes w character_details_url project_id auth_headers tr
           rest) = Some os ->
      List.length os = List.length (VDict fields :: rest)).
    { intros o tr H'.
      destruct (spec_outcomes _ _ _ _ tr rest) as [os0|] eqn:E;
        [|discriminate H'].
      inversion H'; subst. cbn. f_equal. eapply IH, E. }
    destruct (lookup "characterId" fields) as [character_id|]; [|eauto].
    destruct (truthy character_id); [|eauto].
    destruct (detail_request _ _ _ _ _) as [e|rq]; [discriminate H|].
    destruct (send w trace rq) as [e|r]; [discriminate H|eauto].
Qed.

Lemma fetched_or_failed (os : list outcome) :
  (List.length (fetched os) + List.length (filter is_failure os))%nat
  = List.length os.
Proof.
  induction os as [|o os IH]; [reflexivity|].
  destruct o; cbn [fetched flat_map filter is_failure List.length app] in *;
    rewrite ?app_nil_l; fold (fetched os); lia.
Qed.

Lemma failures_reported (os : list outcome) :
  Forall (fun o => is_failure o = true -> reported o = true) os.
Proof.
  induction os as [|o os IH]; constructor; auto.
  destruct o; intros H; try reflexivity; discriminate H.
Qed.

(** C1, as amended: when every summary is an object, the detail URL
    template formats and every detail request is answered, the loop returns
    the records of the items whose response has no 4xx/5xx status and a
    body that decodes, in input order; every other item (no identifier,
    error status, undecodable body) is reported in the log and skipped,
    and the items after it are still processed. *)
Theorem detail_failures_are_skipped (w : world)
    (character_details_url project_id : value)
    (auth_headers : list (string * string))
    (characters : list value) (os : list outcome)
    (all_character_data : list value) (s : state) :
  spec_outcomes w character_details_url project_id auth_headers (sent s)
    characters = Some os ->
  fetch_details w character_details_url project_id auth_headers characters
    all_character_data s =
    (inr (all_character_data ++ fetched os),
     {| sent := sent s ++ requests_of os;
        log := log s ++ flat_map outcome_log os;
        fs := fs s |}) /\
  List.length os = List.length characters /\
  (List.length (fetched os) + List.length (filter is_failure os))%nat
  = List.length characters /\
  Forall (fun o => is_failure o = true -> reported o = true) os.
Proof.
  intros H. split; [|split; [|split]].
  - apply fetch_details_outcomes, H.
  - eapply spec_outcomes_length, H.
  - rewrite fetched_or_failed. eapply spec_outcomes_length, H.
  - apply failures_reported.
Qed.

Lemma detail_failures_are_skipped_witness :
  fst (fetch_details details_second_fails details_template (VInt 42)
         [("Authorization", "Bearer T0K3N")]
         [summary 1; summary 2; summary 3] [] initial)
  = inr [record_1; record_3].
Proof.
  destruct (detail_failures_are_skipped details_second_fails details_template
              (VInt 42) [("Authorization", "Bearer T0K3N")]
              [summary 1; summary 2; summary 3] _ [] initial eq_refl)
    as [run _].
  rewrite run. reflexivity.
Defined.

(** C1 as stated fails: a detail response with status 300, which is not a
    2xx status, and a body that decodes is collected, not skipped.  Nor
    does the loop go on over every list: a summary that is not an object,
    and a detail request that gets no response, end it with an exception
    after the first of three items. *)
Lemma non_2xx_detail_is_collected :
  let r := {| status_code := 300; text := "<json>"; json := Some record_1 |} in
  let w := scripted (inr sample_config) [inr r] in
  let unreachable :=
    scripted (inr sample_config)
      [json_response 200 record_1; inl ConnectionError] in
  ~ (200 <= status_code r < 300) /\
  fst (fetch_details w details_template (VInt 42)
         [("Authorization", "Bearer T0K3N")] [summary 1] [] initial)
  = inr [record_1] /\
  fst (fetch_details details_second_fails details_template (VInt 42)
         [("Authorization", "Bearer T0K3N")]
         [summary 1; VNone; summary 3] [] initial)
  = inl (AttributeError "get") /\
  fst (fetch_details unreachable details_template (VInt 42)
         [("Authorization", "Bearer T0K3N")]
         [summary 1; summary 2; summary 3] [] initial)
  = inl (RequestException ConnectionError).
Proof. cbv zeta. split; [cbn; lia|repeat split]. Qed.

(** C9: a summary whose [characterId] is present but falsy is handled as
    one without the key: a warning is logged, no request is sent, and the
    loop goes on with the remaining summaries. *)
Theorem falsy_identifier_is_skipped (w : world)
    (character_details_url project_id : value)
    (auth_headers : list (string * string))
    (fields : list (string * value)) (character_id : value)
    (rest all_character_data : list value) (s : state) :
  lookup "characterId" fields = Some character_id ->
  truthy character_id = false ->
  fetch_details w character_details_url project_id auth_headers
    (VDict fields :: rest) all_character_data s =
  fetch_details w character_details_url project_id auth_headers rest
    all_character_data
    {| sent := sent s;
       log := log s ++
              [module_record WARNING
                 [Lit "Character ID not found in the character data."]];
       fs := fs s |} /\
  forall absent,
    lookup "characterId" absent = None ->
    fetch_details w character_details_url project_id auth_headers
      (VDict fields :: rest) all_character_data s =
    fetch_details w character_details_url project_id auth_headers
      (VDict absent :: rest) all_character_data s.
Proof.
  intros Hid Hfalsy. split; [|intros absent Habsent];
    rewrite !fetch_details_cons; cbv zeta;
    rewrite ?Hid, ?Habsent, ?Hfalsy; reflexivity.
Qed.

Lemma falsy_identifier_is_skipped_witness :
  fetch_details details_second_fails details_template (VInt 42) []
    [VDict [("characterId", VInt 0)]] [] initial =
  (inr [],
   {| sent := [];
      log := [module_record WARNING
                [Lit "Character ID not found in the character data."]];
      fs := [] |}).
Proof.
  destruct (falsy_identifier_is_skipped details_second_fails details_template
              (VInt 42) [] [("characterId", VInt 0)] (VInt 0) [] [] initial
              eq_refl eq_refl) as [run _].
  rewrite run. reflexivity.
Defined.

(** C10: a detail response that passes the status check and whose body
    decodes is appended to the collected records whatever the decoded
    value is; nothing checks that it is an object. *)
Theorem decoded_detail_is_collected (w : world)
    (character_details_url project_id : value)
    (auth_headers : list (string * string))
    (fields : list (string * value)) (character_id : value)
    (rq : request) (r : response) (record : value)
    (rest all_character_data : list value) (s : state) :
  lookup "characterId" fields = Some character_id ->
  truthy character_id = true ->
  detail_request w character_details_url project_id auth_headers
    character_id = inr rq ->
  send w (sent s) rq = inr r ->
  raises_for_status r = false ->
  json r = Some record ->
  fetch_details w character_details_url project_id auth_headers
    (VDict fields :: rest) all_character_data s =
  fetch_details w character_details_url project_id auth_headers rest
    (all_character_data ++ [record])
    {| sent := sent s ++ [rq];
       log := log s ++ [fetching_record character_id];
       fs := fs s |} /\
  forall collected s',
    fetch_details w character_details_url project_id auth_headers
      (VDict fields :: rest) all_character_data s = (inr collected, s') ->
    exists more, collected = all_character_data ++ record :: more.
Proof.
  intros Hid Htruthy Hrq Hsend Hstatus Hjson.
  assert (step :
    fetch_details w character_details_url project_id auth_headers
      (VDict fields :: rest) all_character_data s =
    fetch_details w character_details_url project_id auth_headers rest
      (all_character_data ++ [record])
      {| sent := sent s ++ [rq];
         log := log s ++ [fetching_record character_id];
         fs := fs s |}).
  { rewrite fetch_details_cons. cbv zeta.
    rewrite Hid, Htruthy, Hrq, Hsend. unfold classify.
    rewrite Hstatus, Hjson. reflexivity. }
  split; [exact step|].
  intros collected s' H. rewrite step in H.
  apply fetch_details_frame in H. destruct H as [_ C].
  destruct (C collected eq_refl) as [more ->].
  exists more. now rewrite <- app_assoc.
Qed.

(** A detail body that is a bare number is collected like any other. *)
Lemma decoded_detail_is_collected_witness :
  fst (fetch_details (scripted (inr sample_config) [json_response 200 (VInt 5)])
         details_template (VInt 42) [] [summary 1] [] initial)
  = inr [VInt 5].
Proof.
  destruct (decoded_detail_is_collected
              (scripted (inr sample_config) [json_response 200 (VInt 5)])
              details_template (VInt 42) [] [("characterId", VInt 1)]
              (VInt 1) _ _ (VInt 5) [] [] initial
              eq_refl eq_refl eq_refl eq_refl eq_refl eq_refl) as [run _].
  unfold summary. rewrite run. reflexivity.
Defined.

(** ** The whole run *)

Section Run.

Variable w : world.
Variables config_path output_file : string.

Let run := fetch_character_data w config_path output_file.

(** The run up to the authentication request. *)
Lemma run_configured (c : settings) (s : state) :
  configured w config_path c ->
  run s =
  let s1 := {| sent := sent s ++ [auth_request c];
               log := log s ++ [authenticating_record];
               fs := fs s |} in
  match send w (sent s) (auth_request c) with
  | inl e => (inl (RequestException e), s1)
  | inr r =>
      if raises_for_status r then
        (inr tt,
         {| sent := sent s1;
            log := log s1 ++
                   [module_record ERROR [Lit "Authentication failed: ";
                                         Err (HTTPError r)];
                    module_record ERROR [Lit "Status code: ";
                                         Val (VStr "No response")];
                    module_record ERROR [Lit "Response content: ";
                                         Val (VStr "No response")]];
            fs := fs s |})
      else
        match json r with
        | None =>
            (inr tt,
             {| sent := sent s1;
                log := log s1 ++
                       [module_record ERROR
                          [Lit "Failed to decode JSON response."];
                        module_record ERROR [Lit "Response content: ";
                                             Val (VStr (text r))]];
                fs := fs s |})
        | Some body =>
            match get body "access_token" with
            | inl e => (inl e, s1)
            | inr token =>
                if truthy token then run s
                else
                  (inr tt,
                   {| sent := sent s1;
                      log := log s1 ++
                             [module_record ERROR
                                [Lit "Authentication failed: No access_token received."];
                              module_record ERROR [Lit "Response content: ";
                                                   Val (VStr (text r))]];
                      fs := fs s |})
            end
        end
  end.
Proof.
  intros (config & Hload & H1 & H2 & H3 & H4 & H5). cbv zeta.
  subst run. unfold fetch_character_data at 1.
  rewrite Hload, H1, H2, H3, H4, H5. monad_simpl. cbv zeta.
  fold (auth_request c).
  destruct (send w (sent s) (auth_request c)) as [e|r] eqn:Esend;
    [reflexivity|].
  unfold ok. destruct (raises_for_status r) eqn:Estatus; cbn [negb].
  - monad_simpl. rewrite <- !app_assoc. reflexivity.
  - destruct (json r) as [body|] eqn:Ejson.
    + destruct (get body "access_token") as [e|token] eqn:Etoken;
        monad_simpl; [reflexivity|].
      destruct (truthy token) eqn:Etruthy; cbn [negb].
      * unfold fetch_character_data.
        rewrite Hload, H1, H2, H3, H4, H5. monad_simpl. cbv zeta.
        fold (auth_request c). rewrite Esend, Estatus, Ejson, Etoken.
        monad_simpl. rewrite Etruthy. reflexivity.
      * monad_simpl. rewrite <- !app_assoc. reflexivity.
    + monad_simpl. rewrite <- !app_assoc. reflexivity.
Qed.

(** The run after a successful authentication. *)
Lemma run_authenticated (c : settings) (token : value) (s : state) :
  configured w config_path c ->
  authenticated w c (sent s) token ->
  run s =
  let s1 := {| sent := sent s ++ [auth_request c];
               log := log s ++ [authenticating_record; fetching_ids_record];
               fs := fs s |} in
  match list_request w c token with
  | inl e => (inl e, s1)
  | inr rq =>
      let s2 := {| sent := sent s1 ++ [rq]; log := log s1; fs := fs s |} in
      match send w (sent s1) rq with
      | inl e => (inl (RequestException e), s2)
      | inr r =>
          if raises_for_status r then
            (inr tt,
             {| sent := sent s2;
                log := log s2 ++
                       [module_record ERROR
                          [Lit "Failed to fetch character IDs: ";
                           Err (HTTPError r)];
                        module_record ERROR [Lit "Response content: ";
                                             Val (VStr (text r))]];
                fs := fs s |})
          else
            match json r with
            | None => (inl ValueError, s2)
            | Some (VList []) =>
                (inr tt,
                 {| sent := sent s2;
                    log := log s2 ++
                           [module_record INFO [Lit "No characters found."]];
                    fs := fs s |})
            | Some (VList items) =>
                match fetch_details w (cfg_character_details_url c)
                        (cfg_project_id c) (bearer w token) items [] s2 with
                | (inl e, s3) => (inl e, s3)
                | (inr [], s3) =>
                    (inr tt,
                     {| sent := sent s3;
                        log := log s3 ++
                               [module_record INFO
                                  [Lit "No character data available to write."]];
                        fs := fs s3 |})
                | (inr all_character_data, s3) =>
                    write_to_csv_with_pandas w all_character_data
                      output_file s3
                end
            | Some _ =>
                (inr tt,
                 {| sent := sent s2;
                    log := log s2 ++
                           [module_record ERROR
                              [Lit "Unexpected data format received for characters."]];
                    fs := fs s |})
            end
      end
  end.
Proof.
  intros (config & Hload & H1 & H2 & H3 & H4 & H5)
         (r0 & body & Hsend & Hstatus & Hjson & Htoken & Htruthy).
  cbv zeta. subst run. unfold fetch_character_data.
  rewrite Hload, H1, H2, H3, H4, H5. monad_simpl. cbv zeta.
  fold (auth_request c). rewrite Hsend, Hstatus, Hjson, Htoken.
  monad_simpl. rewrite Htruthy. cbn [negb]. monad_simpl.
  unfold list_request. fold (bearer w token).
  destruct (format w (cfg_characters_url c) _) as [e|u]; monad_simpl;
    [rewrite <- !app_assoc; reflexivity|].
  cbv zeta. rewrite <- !app_assoc. cbn [app].
  destruct (send w (sent s ++ [auth_request c]) _) as [e|r];
    [reflexivity|].
  destruct (raises_for_status r).
  { monad_simpl. rewrite <- !app_assoc. reflexivity. }
  destruct (json r) as [characters|]; monad_simpl; [|reflexivity].
  destruct characters as [| | | |items|]; monad_simpl;
    rewrite <- ?app_assoc; try reflexivity.
  destruct items as [|character rest]; monad_simpl;
    rewrite <- ?app_assoc; [reflexivity|].
  unfold bind at 1.
  destruct (fetch_details _ _ _ _ _ _ _) as [[e|data] s3]; [reflexivity|].
  destruct data; monad_simpl; reflexivity.
Qed.

End Run.

Lemma run_without_configuration (w : world)
    (config_path output_file : string) (s : state) :
  load_config w config_path = inl FileNotFoundError ->
  fetch_character_data w config_path output_file s =
  (inr tt,
   {| sent := sent s;
      log := log s ++
             [module_record ERROR [Lit "Configuration file not found at ";
                                   Val (VStr config_path); Lit "."]];
      fs := fs s |}).
Proof.
  intros H. unfold fetch_character_data. rewrite H. reflexivity.
Qed.

(** C8: when the configuration path does not resolve the run logs the
    error and returns; it sends no request and touches no file. *)
Theorem missing_configuration_file (w : world)
    (config_path output_file : string) (s : state) :
  load_config w config_path = inl FileNotFoundError ->
  fetch_character_data w config_path output_file s =
  (inr tt,
   {| sent := sent s;
      log := log s ++
             [module_record ERROR [Lit "Configuration file not found at ";
                                   Val (VStr config_path); Lit "."]];
      fs := fs s |}).
Proof. apply run_without_configuration. Qed.

Lemma missing_configuration_file_witness :
  main (scripted (inl FileNotFoundError) []) initial =
  (inr tt,
   {| sent := [];
      log := [module_record ERROR [Lit "Configuration file not found at ";
                                   Val (VStr "parse_config.yaml"); Lit "."]];
      fs := [] |}).
Proof.
  exact (missing_configuration_file (scripted (inl FileNotFoundError) [])
           CONFIG_PATH OUTPUT_FILE initial eq_refl).
Defined.

(** C3, as amended: an authentication response with a 4xx/5xx status is
    logged as a failed authentication; a body that does not decode is
    logged with the response text; so is a JSON object whose
    [access_token] is absent or falsy.  In each case the run returns
    without raising after that one request, and no file is touched. *)
Theorem authentication_failures (w : world)
    (config_path output_file : string) (c : settings) (s : state)
    (r : response) :
  configured w config_path c ->
  send w (sent s) (auth_request c) = inr r ->
  let run := fetch_character_data w config_path output_file s in
  let after (records : list log_record) :=
    {| sent := sent s ++ [auth_request c];
       log := log s ++ authenticating_record :: records;
       fs := fs s |} in
  (raises_for_status r = true ->
   exists more,
     run = (inr tt,
            after (module_record ERROR [Lit "Authentication failed: ";
                                        Err (HTTPError r)] :: more))) /\
  (raises_for_status r = false -> json r = None ->
   run = (inr tt,
          after [module_record ERROR [Lit "Failed to decode JSON response."];
                 module_record ERROR [Lit "Response content: ";
                                      Val (VStr (text r))]])) /\
  (raises_for_status r = false ->
   forall fields,
     json r = Some (VDict fields) ->
     (lookup "access_token" fields = None \/
      exists token,
        lookup "access_token" fields = Some token /\ truthy token = false) ->
     run = (inr tt,
            after [module_record ERROR
                     [Lit "Authentication failed: No access_token received."];
                   module_record ERROR [Lit "Response content: ";
                                        Val (VStr (text r))]])).
Proof.
  intros Hc Hsend run after. subst run.
  rewrite (run_configured w config_path output_file c s Hc).
  cbv zeta. rewrite Hsend. subst after. cbn [sent log fs].
  rewrite <- !app_assoc. cbn [app].
  split; [|split].
  - intros ->. eexists. reflexivity.
  - intros -> ->. reflexivity.
  - intros -> fields -> Htoken. cbn [get].
    destruct Htoken as [-> | (token & -> & Hfalsy)].
    + reflexivity.
    + rewrite Hfalsy. reflexivity.
Qed.

Lemma sample_configured script path :
  configured (scripted (inr sample_config) script) path sample_settings.
Proof. exists sample_config. repeat split. Qed.

(** The API answers the authentication with 401. *)
Lemma authentication_failures_witness :
  let w := scripted (inr sample_config) [text_response 401 "Unauthorized"] in
  fst (main w initial) = inr tt /\
  List.length (sent (snd (main w initial))) = 1%nat.
Proof.
  cbv zeta.
  destruct (authentication_failures
              (scripted (inr sample_config) [text_response 401 "Unauthorized"])
              CONFIG_PATH OUTPUT_FILE sample_settings initial _
              (sample_configured _ _) eq_refl) as [rejected _].
  destruct (rejected eq_refl) as [more run].
  unfold main. rewrite run. split; reflexivity.
Defined.

(** C3 as stated fails.  An authentication response with status 300, which
    is not a 2xx status, and a body holding a token counts as a successful
    authentication: no error is logged and the list request is sent with
    that token.  And when the request gets no response, the exception
    leaves [fetch_character_data]. *)
Lemma non_2xx_authentication_accepted :
  let r := {| status_code := 300; text := "<json>";
              json := Some (VDict [("access_token", VStr "T0K3N")]) |} in
  let redirected :=
    scripted (inr sample_config) [inr r; json_response 200 (VList [])] in
  let unreachable := scripted (inr sample_config) [inl ConnectionError] in
  ~ (200 <= status_code r < 300) /\
  map levelname (log (snd (main redirected initial))) = [INFO; INFO; INFO] /\
  map headers (tl (sent (snd (main redirected initial))))
    = [[("Authorization", "Bearer T0K3N")]] /\
  fst (main unreachable initial) = inl (RequestException ConnectionError).
Proof. cbv zeta. split; [cbn; lia|]. repeat split. Qed.

Lemma list_answer_authenticated answer :
  authenticated (list_answer answer) sample_settings [] (VStr "T0K3N").
Proof. do 2 eexists. repeat split. Qed.

(** C5: a character-list response that passes the status check and whose
    body decodes to something other than a list makes the run log the
    unexpected format and return; no detail request is sent and no file is
    touched. *)
Theorem unexpected_list_format (w : world)
    (config_path output_file : string) (c : settings) (token : value)
    (rq : request) (r : response) (characters : value) (s : state) :
  configured w config_path c ->
  authenticated w c (sent s) token ->
  listed w c (sent s) token rq r ->
  raises_for_status r = false ->
  json r = Some characters ->
  isinstance_list characters = false ->
  fetch_character_data w config_path output_file s =
  (inr tt,
   {| sent := sent s ++ [auth_request c; rq];
      log := log s ++
             [authenticating_record; fetching_ids_record;
              module_record ERROR
                [Lit "Unexpected data format received for characters."]];
      fs := fs s |}).
Proof.
  intros Hc Ha [Hrq Hsend] Hstatus Hjson Hshape.
  rewrite (run_authenticated w config_path output_file c token s Hc Ha).
  cbv zeta. cbn [sent log fs]. rewrite Hrq, Hsend, Hstatus, Hjson.
  destruct characters; try discriminate Hshape;
    rewrite <- !app_assoc; reflexivity.
Qed.

(** The list endpoint answers with a JSON object. *)
Lemma unexpected_list_format_witness :
  let w := list_answer (json_response 200 (VDict [("items", VList [])])) in
  fst (main w initial) = inr tt /\
  fs (snd (main w initial)) = [] /\
  map levelname (log (snd (main w initial))) = [INFO; INFO; ERROR].
Proof.
  cbv zeta. unfold main.
  rewrite (unexpected_list_format
             (list_answer (json_response 200 (VDict [("items", VList [])])))
             CONFIG_PATH OUTPUT_FILE sample_settings (VStr "T0K3N") _ _ _
             initial (sample_configured _ _) (list_answer_authenticated _)
             (conj eq_refl eq_refl) eq_refl eq_refl eq_refl).
  repeat split.
Defined.

(** C6: when the character list is empty, or when the loop collects no
    record, the run logs that at INFO level and returns; the exporter is
    not run, so the file system is as before and nothing was logged
    through the root logger. *)
Theorem nothing_to_export (w : world)
    (config_path output_file : string) (c : settings) (token : value)
    (rq : request) (r : response) (s : state) :
  configured w config_path c ->
  authenticated w c (sent s) token ->
  listed w c (sent s) token rq r ->
  raises_for_status r = false ->
  let listed_state :=
    {| sent := sent s ++ [auth_request c; rq];
       log := log s ++ [authenticating_record; fetching_ids_record];
       fs := fs s |} in
  (json r = Some (VList []) ->
   fetch_character_data w config_path output_file s =
   (inr tt,
    {| sent := sent listed_state;
       log := log listed_state ++
              [module_record INFO [Lit "No characters found."]];
       fs := fs s |})) /\
  (forall items s',
     json r = Some (VList items) ->
     items <> [] ->
     fetch_details w (cfg_character_details_url c) (cfg_project_id c)
       (bearer w token) items [] listed_state = (inr [], s') ->
     fetch_character_data w config_path output_file s =
     (inr tt,
      {| sent := sent s';
         log := log s' ++
                [module_record INFO
                   [Lit "No character data available to write."]];
         fs := fs s |}) /\
     exists records,
       log s' = log listed_state ++ records /\
       Forall (fun x => name x = Module_logger) records).
Proof.
  intros Hc Ha [Hrq Hsend] Hstatus listed_state.
  rewrite (run_authenticated w config_path output_file c token s Hc Ha).
  cbv zeta. cbn [sent log fs]. rewrite Hrq, Hsend, Hstatus.
  subst listed_state. rewrite <- !app_assoc. cbn [app sent log fs].
  split.
  - intros ->. rewrite <- !app_assoc. reflexivity.
  - intros items s' -> Hitems Hloop.
    destruct items as [|character rest]; [contradiction|].
    rewrite Hloop.
    apply fetch_details_frame in Hloop.
    destruct Hloop as [(Hfs & _ & Hlog) _]. cbn [fs] in Hfs.
    rewrite Hfs. split; [reflexivity|exact Hlog].
Qed.

Lemma list_answer_listed answer r :
  answer = inr r ->
  listed (list_answer answer) sample_settings [] (VStr "T0K3N")
    {| meth := GET;
       url := VStr "https://joinrpg.ru/x-game-api/42/characters";
       data := None;
       headers := [("Authorization", "Bearer T0K3N")] |} r.
Proof. intros ->. split; reflexivity. Qed.

(** The list endpoint answers with an empty list; and it answers with one
    summary that has no identifier. *)
Lemma nothing_to_export_witness :
  let empty := list_answer (json_response 200 (VList [])) in
  let anonymous := list_answer (json_response 200 (VList [VDict []])) in
  (fst (main empty initial) = inr tt /\
   fs (snd (main empty initial)) = [] /\
   map levelname (log (snd (main empty initial))) = [INFO; INFO; INFO]) /\
  (fst (main anonymous initial) = inr tt /\
   fs (snd (main anonymous initial)) = [] /\
   map levelname (log (snd (main anonymous initial)))
     = [INFO; INFO; WARNING; INFO]).
Proof.
  cbv zeta. unfold main. split.
  - destruct (nothing_to_export
                (list_answer (json_response 200 (VList [])))
                CONFIG_PATH OUTPUT_FILE sample_settings (VStr "T0K3N") _ _
                initial (sample_configured _ _) (list_answer_authenticated _)
                (list_answer_listed _ _ eq_refl) eq_refl) as [empty _].
    rewrite (empty eq_refl). repeat split.
  - destruct (nothing_to_export
                (list_answer (json_response 200 (VList [VDict []])))
                CONFIG_PATH OUTPUT_FILE sample_settings (VStr "T0K3N") _ _
                initial (sample_configured _ _) (list_answer_authenticated _)
                (list_answer_listed _ _ eq_refl) eq_refl) as [_ none].
    destruct (none [VDict []] _ eq_refl ltac:(discriminate) eq_refl)
      as [run _].
    rewrite run. repeat split.
Defined.

(** ** The exporter never raises *)

Lemma write_to_csv_with_pandas_returns (w : world) (data : list value)
    (output_file : string) (s : state) :
  exists s',
    write_to_csv_with_pandas w data output_file s = (inr tt, s') /\
    sent s' = sent s.
Proof.
  unfold write_to_csv_with_pandas.
  destruct (json_normalize w data) as [e|df]; monad_simpl.
  - eexists; split; reflexivity.
  - destruct (to_csv w output_file df); unfold record_fs, bind; cbn;
      eexists; split; reflexivity.
Qed.

Lemma run_trace_shape (w : world) (config_path output_file : string)
    (s : state) result s' :
  fetch_character_data w config_path output_file s = (result, s') ->
  trace_shape w s s'.
Proof.
  intros H.
  destruct (load_config w config_path) as [e|config] eqn:Hload.
  { apply No_request. unfold fetch_character_data in H. rewrite Hload in H.
    destruct e; inversion H; reflexivity. }
  destruct (getitem config "auth_url") as [e|v1] eqn:H1;
    [apply No_request; unfold fetch_character_data in H;
     rewrite Hload, H1 in H; inversion H; reflexivity|].
  destruct (getitem config "login_data") as [e|v2] eqn:H2;
    [apply No_request; unfold fetch_character_data in H;
     rewrite Hload, H1, H2 in H; inversion H; reflexivity|].
  destruct (getitem config "characters_url") as [e|v3] eqn:H3;
    [apply No_request; unfold fetch_character_data in H;
     rewrite Hload, H1, H2, H3 in H; inversion H; reflexivity|].
  destruct (getitem config "character_details_url") as [e|v4] eqn:H4;
    [apply No_request; unfold fetch_character_data in H;
     rewrite Hload, H1, H2, H3, H4 in H; inversion H; reflexivity|].
  destruct (getitem config "project_id") as [e|v5] eqn:H5;
    [apply No_request; unfold fetch_character_data in H;
     rewrite Hload, H1, H2, H3, H4, H5 in H; inversion H; reflexivity|].
  set (c := {| cfg_auth_url := v1; cfg_login_data := v2;
               cfg_characters_url := v3; cfg_character_details_url := v4;
               cfg_project_id := v5 |}).
  assert (Hc : configured w config_path c)
    by (exists config; repeat split; assumption).
  pose proof (run_configured w config_path output_file c s Hc) as E.
  cbv zeta in E.
  destruct (send w (sent s) (auth_request c)) as [e|r] eqn:Hsend.
  { rewrite E in H. inversion H. now apply Only_authentication with c. }
  destruct (raises_for_status r) eqn:Hstatus.
  { rewrite E in H. inversion H. now apply Only_authentication with c. }
  destruct (json r) as [body|] eqn:Hjson;
    [|rewrite E in H; inversion H; now apply Only_authentication with c].
  destruct (get body "access_token") as [e|token] eqn:Htoken;
    [rewrite E in H; inversion H; now apply Only_authentication with c|].
  destruct (truthy token) eqn:Htruthy;
    [|rewrite E in H; inversion H; now apply Only_authentication with c].
  clear E.
  assert (Ha : authenticated w c (sent s) token)
    by (exists r, body; repeat split; assumption).
  rewrite (run_authenticated w config_path output_file c token s Hc Ha) in H.
  cbv zeta in H. cbn [sent log fs] in H.
  assert (done : forall final gets,
             sent final = (sent s ++ [auth_request c]) ++ gets ->
             Forall (authorised (bearer w token)) gets ->
             trace_shape w s final).
  { intros final gets Hfinal Hg. rewrite <- app_assoc in Hfinal.
    now apply Authenticated_requests with c token gets. }
  destruct (list_request w c token) as [e|rq] eqn:Hrq.
  { inversion H; subst s'. apply (done _ []); [|constructor].
    cbn [sent]. now rewrite app_nil_r. }
  assert (Arq : Forall (authorised (bearer w token)) [rq]).
  { constructor; [|constructor]. unfold list_request in Hrq.
    destruct (format w _ _); inversion Hrq; split; reflexivity. }
  destruct (send w (sent s ++ [auth_request c]) rq) as [e|r1];
    [inversion H; subst s'; now apply (done _ [rq])|].
  destruct (raises_for_status r1);
    [inversion H; subst s'; now apply (done _ [rq])|].
  destruct (json r1) as [characters|];
    [|inversion H; subst s'; now apply (done _ [rq])].
  destruct characters as [| | | |items|];
    try (inversion H; subst s'; now apply (done _ [rq])).
  destruct items as [|character rest];
    [inversion H; subst s'; now apply (done _ [rq])|].
  destruct (fetch_details _ _ _ _ _ _ _) as [collected s3] eqn:Hloop.
  apply fetch_details_frame in Hloop.
  destruct Hloop as [(_ & (gets & Hsent & Hgets) & _) _].
  cbn [sent] in Hsent.
  assert (Hs3 : trace_shape w s s3).
  { apply (done _ ([rq] ++ gets)); [now rewrite app_assoc|].
    apply Forall_app; auto. }
  assert (same : sent s' = sent s3 -> trace_shape w s s').
  { intros Hs'. destruct Hs3 as [N|c0 O|c0 t0 g0 A0 S0 F0].
    - apply No_request; congruence.
    - apply Only_authentication with c0; congruence.
    - apply Authenticated_requests with c0 t0 g0; congruence. }
  destruct collected as [e|[|record more]];
    try (inversion H; subst; apply same; reflexivity).
  destruct (write_to_csv_with_pandas_returns w (record :: more) output_file
              s3) as (s4 & Hw & Hs4).
  rewrite Hw in H. inversion H; subst. apply same, Hs4.
Qed.

(** C2: if the answer to the first request of a run, the authentication
    POST, carries the token string [T], every later request of the run is a
    GET with the header [Authorization: Bearer T]. *)
Theorem bearer_token_on_every_request (w : world)
    (config_path output_file : string) (T : string)
    (first : request) (later : list request)
    (r : response) (body : value) :
  sent (snd (fetch_character_data w config_path output_file initial))
    = first :: later ->
  send w [] first = inr r ->
  json r = Some body ->
  get body "access_token" = inr (VStr T) ->
  meth first = POST /\
  Forall (fun rq => meth rq = GET /\
                    headers rq = [("Authorization", "Bearer " ++ T)%string])
    later.
Proof.
  intros Hsent Hsend Hjson Htoken.
  destruct (fetch_character_data w config_path output_file initial)
    as [result s'] eqn:Hrun.
  cbn [snd] in Hsent.
  destruct (run_trace_shape _ _ _ _ _ _ Hrun) as [N|c O|c token gets A S F];
    cbn [sent initial app] in *.
  - congruence.
  - rewrite O in Hsent. inversion Hsent; subst. split; [reflexivity|].
    constructor.
  - rewrite S in Hsent. inversion Hsent; subst. split; [reflexivity|].
    destruct A as (r' & body' & Hsend' & _ & Hjson' & Htoken' & _).
    assert (token = VStr T) as -> by congruence.
    exact F.
Qed.

Lemma bearer_token_on_every_request_witness :
  List.length (sent (snd (main second_fails initial))) = 5%nat /\
  Forall (fun rq => meth rq = GET /\
                    headers rq = [("Authorization", "Bearer T0K3N")])
    (tl (sent (snd (main second_fails initial)))).
Proof.
  split; [reflexivity|].
  apply (bearer_token_on_every_request second_fails CONFIG_PATH OUTPUT_FILE
           "T0K3N" _ _ _ _ eq_refl eq_refl eq_refl eq_refl).
Defined.

(** ** Returning normally *)

Lemma fetch_details_returns (w : world)
    (character_details_url project_id : value)
    (auth_headers : list (string * string)) (characters : list value) :
  (forall trace rq, exists r, send w trace rq = inr r) ->
  (forall character_id,
      exists rq,
        detail_request w character_details_url project_id auth_headers
          character_id = inr rq) ->
  Forall (fun x => isinstance_dict x = true) characters ->
  forall acc s,
    exists collected s',
      fetch_details w character_details_url project_id auth_headers
        characters acc s = (inr collected, s').
Proof.
  intros Hsend Hrq Hdicts.
  induction Hdicts as [|character rest Hdict _ IH]; intros acc s.
  - do 2 eexists. reflexivity.
  - destruct character as [| | | | |fields]; try discriminate Hdict.
    rewrite fetch_details_cons. cbv zeta.
    destruct (truthy _); [|apply IH].
    destruct (Hrq (match lookup "characterId" fields with
                   | Some x => x | None => VNone end)) as [rq ->].
    destruct (Hsend (sent s) rq) as [r ->].
    destruct (classify _ rq r); apply IH.
Qed.

(** C4, as amended: the entry point returns normally when the
    configuration file is missing, and also when it holds the five keys,
    every request gets a response, the two URL templates format, the
    authentication body is an object whenever it decodes, the body of a
    character list that passes the status check decodes, and the
    summaries of a list are objects.  The result carries no failure
    indication; what went wrong is in the log only. *)
Theorem entry_point_returns_normally (w : world) (c : settings) :
  load_config w CONFIG_PATH = inl FileNotFoundError \/
  configured w CONFIG_PATH c ->
  (forall trace rq, exists r, send w trace rq = inr r) ->
  (forall r body,
      send w [] (auth_request c) = inr r ->
      raises_for_status r = false ->
      json r = Some body ->
      isinstance_dict body = true) ->
  (forall token, exists rq, list_request w c token = inr rq) ->
  (forall token character_id,
      exists rq,
        detail_request w (cfg_character_details_url c) (cfg_project_id c)
          (bearer w token) character_id = inr rq) ->
  (forall rq r,
      send w [auth_request c] rq = inr r ->
      raises_for_status r = false ->
      exists characters,
        json r = Some characters /\
        forall items,
          characters = VList items ->
          Forall (fun x => isinstance_dict x = true) items) ->
  fst (main w initial) = inr tt.
Proof.
  intros [Hmissing|Hc] Hsend Hbody Hlist Hdetail Hitems; unfold main.
  { rewrite run_without_configuration by exact Hmissing. reflexivity. }
  rewrite (run_configured w CONFIG_PATH OUTPUT_FILE c initial Hc).
  cbv zeta. cbn [sent initial].
  destruct (Hsend [] (auth_request c)) as [r Hr]. rewrite Hr.
  destruct (raises_for_status r) eqn:Hstatus; [reflexivity|].
  destruct (json r) as [body|] eqn:Hjson; [|reflexivity].
  pose proof (Hbody r body Hr Hstatus Hjson) as Hdict.
  destruct body as [| | | | |fields]; try discriminate Hdict.
  destruct (get (VDict fields) "access_token") as [e|token] eqn:Htoken.
  { cbn in Htoken. destruct (lookup _ _); discriminate Htoken. }
  destruct (truthy token) eqn:Htruthy; [|reflexivity].
  assert (Ha : authenticated w c (sent initial) token)
    by (exists r, (VDict fields); repeat split; assumption).
  rewrite (run_authenticated w CONFIG_PATH OUTPUT_FILE c token initial Hc Ha).
  cbv zeta. cbn [sent log fs initial app].
  destruct (Hlist token) as [rq ->].
  destruct (Hsend [auth_request c] rq) as [r1 Hr1]. rewrite Hr1.
  destruct (raises_for_status r1) eqn:Hstatus1; [reflexivity|].
  destruct (Hitems rq r1 Hr1 Hstatus1) as (characters & -> & Hdicts).
  destruct characters as [| | | |items|]; try reflexivity.
  destruct items as [|character rest]; [reflexivity|].
  destruct (fetch_details_returns w (cfg_character_details_url c)
              (cfg_project_id c) (bearer w token) (character :: rest)
              Hsend (Hdetail token) (Hdicts _ eq_refl) []
              {| sent := [auth_request c; rq];
                 log := [authenticating_record; fetching_ids_record];
                 fs := [] |}) as (collected & s3 & ->).
  destruct collected as [|record more]; [reflexivity|].
  destruct (write_to_csv_with_pandas_returns w (record :: more) OUTPUT_FILE
              s3) as (s4 & -> & _).
  reflexivity.
Qed.

Lemma second_fails_always_answers trace rq :
  exists r, send second_fails trace rq = inr r.
Proof.
  destruct trace as [|? [|? [|? [|? [|? trace]]]]]; cbn;
    try (eexists; reflexivity).
  destruct (List.length trace); eexists; reflexivity.
Qed.

Lemma entry_point_returns_normally_witness :
  fst (main second_fails initial) = inr tt.
Proof.
  apply (entry_point_returns_normally second_fails sample_settings).
  - right. apply sample_configured.
  - apply second_fails_always_answers.
  - intros r body Hr _ Hjson. inversion Hr; subst r.
    inversion Hjson; subst body. reflexivity.
  - intros token. eexists. reflexivity.
  - intros token character_id. eexists. reflexivity.
  - intros rq r Hr _. inversion Hr; subst r. eexists. split; [reflexivity|].
    intros items Hitems. inversion Hitems; subst items.
    repeat constructor.
Defined.

(** C4 as stated fails: a configuration file without the [auth_url] key
    makes the entry point raise [KeyError]. *)
Lemma missing_key_raises :
  main (scripted (inr (VDict [])) []) initial
  = (inl (KeyError "auth_url"), initial).
Proof. reflexivity. Qed.

(** ** Flattening *)

(** Induction on a value seen as a tree of nested dicts. *)
Lemma nested_dict_ind (P : value -> Prop) :
  (forall v, isinstance_dict v = false -> P v) ->
  (forall fields, Forall (fun kv => P (snd kv)) fields -> P (VDict fields)) ->
  forall v, P v.
Proof.
  intros Hleaf Hdict.
  fix IH 1. intros [| | | | |fields]; try (apply Hleaf; reflexivity).
  apply Hdict.
  induction fields as [|[k v] fields IHfields]; constructor.
  - apply IH.
  - exact IHfields.
Qed.

Lemma keys_dict_set k v d x :
  In x (keys (dict_set k v d)) <-> x = k \/ In x (keys d).
Proof.
  induction d as [|[k' v'] d IH]; cbn.
  - intuition.
  - destruct (String.eqb_spec k k') as [->|Hne]; cbn; [intuition|].
    rewrite IH. intuition.
Qed.

Lemma keys_dict_merge a b x :
  In x (keys (dict_merge a b)) <-> In x (keys a) \/ In x (keys b).
Proof.
  unfold dict_merge. revert a.
  induction b as [|[k v] b IH]; intros a; cbn.
  - intuition.
  - rewrite IH, keys_dict_set. intuition.
Qed.

Lemma keys_normalise_json (v : value) :
  forall key_string normalized_dict x,
    In x (keys (normalise_json v key_string normalized_dict)) <->
    In x (keys normalized_dict) \/
    exists path, In path (leaf_paths v) /\ x = key_at key_string path.
Proof.
  induction v as [v Hleaf|fields IH] using nested_dict_ind;
    intros key_string nd x.
  - assert (E : normalise_json v key_string nd = dict_set key_string v nd)
      by (destruct v; try reflexivity; discriminate Hleaf).
    assert (L : leaf_paths v = [[]])
      by (destruct v; try reflexivity; discriminate Hleaf).
    rewrite E, L, keys_dict_set. cbn. split.
    + intros [->|H]; [right; exists []; auto|left; exact H].
    + intros [H|(path & [<-|[]] & ->)]; [right; exact H|left; reflexivity].
  - cbn [normalise_json leaf_paths]. revert nd.
    induction IH as [|[key v] fields Hv _ IHfields]; intros nd.
    + cbn. split; [intros H; left; exact H|].
      intros [H|(path & [] & _)]; exact H.
    + cbn [flat_map fst snd]. rewrite IHfields. cbn [snd] in Hv.
      rewrite Hv. split.
      * intros [[H|(path & Hin & ->)]|(path & Hin & ->)].
        -- left; exact H.
        -- right. exists (key :: path). split; [|reflexivity].
           apply in_or_app. left. apply in_map. exact Hin.
        -- right. exists path. split; [|reflexivity].
           apply in_or_app. right. exact Hin.
      * intros [H|(path & Hin & ->)]; [left; left; exact H|].
        apply in_app_or in Hin. destruct Hin as [Hin|Hin].
        -- apply in_map_iff in Hin. destruct Hin as (path' & <- & Hin).
           left. right. exists path'. split; [exact Hin|reflexivity].
        -- right. exists path. split; [exact Hin|reflexivity].
Qed.

Lemma string_app_assoc (a b c : string) :
  ((a ++ b) ++ c = a ++ (b ++ c))%string.
Proof. induction a as [|x a IH]; cbn; [reflexivity|now rewrite IH]. Qed.

Lemma string_app_nonempty (a b : string) :
  a <> ""%string -> (a ++ b)%string <> ""%string.
Proof. destruct a; [congruence|discriminate]. Qed.

Lemma dotted_cons (key : string) (path : list string) :
  dotted (key :: path) =
  match path with
  | [] => key
  | _ => (key ++ sep ++ dotted path)%string
  end.
Proof. destruct path; reflexivity. Qed.

Lemma key_at_nonempty (path : list string) :
  forall key_string,
    key_string <> ""%string ->
    key_at key_string path =
    match path with
    | [] => key_string
    | _ => (key_string ++ sep ++ dotted path)%string
    end.
Proof.
  induction path as [|key path IH]; intros key_string Hne; [reflexivity|].
  cbn [key_at].
  destruct (String.eqb_spec key_string "") as [E|_]; [contradiction|].
  rewrite IH by (apply string_app_nonempty, Hne).
  rewrite dotted_cons. destruct path; [reflexivity|].
  now rewrite !string_app_assoc.
Qed.

Lemma key_at_top (key : string) (path : list string) :
  key <> ""%string -> key_at "" (key :: path) = dotted (key :: path).
Proof.
  intros Hne. cbn [key_at String.eqb].
  replace (removeprefix sep ("" ++ sep ++ key)) with key
    by (unfold removeprefix; cbn; reflexivity).
  rewrite key_at_nonempty by exact Hne. now rewrite dotted_cons.
Qed.

Lemma leaf_paths_leaf (v : value) :
  isinstance_dict v = false -> leaf_paths v = [[]].
Proof. destruct v; try reflexivity; discriminate. Qed.

Lemma leaf_paths_VDict (fields : dict) (path : list string) :
  In path (leaf_paths (VDict fields)) <->
  exists key v rest,
    In (key, v) fields /\ In rest (leaf_paths v) /\ path = key :: rest.
Proof.
  cbn [leaf_paths]. rewrite in_flat_map. split.
  - intros ([key v] & Hin & Hpath). cbn in Hpath.
    apply in_map_iff in Hpath. destruct Hpath as (rest & <- & Hrest).
    exists key, v, rest. auto.
  - intros (key & v & rest & Hin & Hrest & ->).
    exists (key, v). split; [exact Hin|]. cbn. apply in_map, Hrest.
Qed.

(** The keys of a flattened record are the dotted paths of its leaves. *)
Lemma keys_normalise_json_ordered (record : dict) (x : string) :
  Forall (fun kv => fst kv <> ""%string) record ->
  In x (keys (normalise_json_ordered record)) <-> In x (spec_columns record).
Proof.
  intros Hkeys. rewrite Forall_forall in Hkeys.
  unfold normalise_json_ordered, spec_columns.
  rewrite keys_dict_merge, keys_normalise_json, in_map_iff.
  unfold keys at 1. rewrite in_map_iff. split.
  - intros [([key v] & <- & Hin)|[[]|(path & Hin & ->)]].
    + apply filter_In in Hin. destruct Hin as [Hin Hleaf]. cbn in Hleaf.
      exists [key]. split; [reflexivity|].
      apply leaf_paths_VDict. exists key, v, []. repeat split; auto.
      rewrite leaf_paths_leaf; [left; reflexivity|].
      now destruct (isinstance_dict v).
    + apply leaf_paths_VDict in Hin.
      destruct Hin as (key & v & rest & Hin & Hrest & ->).
      apply filter_In in Hin. destruct Hin as [Hin Hdict].
      exists (key :: rest). split.
      * symmetry. apply key_at_top. apply (Hkeys (key, v) Hin).
      * apply leaf_paths_VDict. exists key, v, rest. auto.
  - intros (path & <- & Hin). apply leaf_paths_VDict in Hin.
    destruct Hin as (key & v & rest & Hin & Hrest & ->).
    destruct (isinstance_dict v) eqn:Hshape.
    + right. right. exists (key :: rest). split.
      * apply leaf_paths_VDict. exists key, v, rest. repeat split; auto.
        apply filter_In. auto.
      * symmetry. apply key_at_top. apply (Hkeys (key, v) Hin).
    + left. exists (key, v). rewrite leaf_paths_leaf in Hrest by exact Hshape.
      destruct Hrest as [<-|[]]. split; [reflexivity|].
      apply filter_In. cbn. now rewrite Hshape.
Qed.

(** ** The frame of a list of dicts *)

Lemma add_column_In cols k x :
  In x (add_column cols k) <-> In x cols \/ x = k.
Proof.
  unfold add_column. destruct (existsb (String.eqb k) cols) eqn:E.
  - apply existsb_exists in E. destruct E as (k' & Hin & Heq).
    apply String.eqb_eq in Heq. subst k'. intuition (subst; auto).
  - rewrite in_app_iff. cbn. intuition.
Qed.

Lemma add_column_NoDup cols k : NoDup cols -> NoDup (add_column cols k).
Proof.
  intros Hnd. unfold add_column.
  destruct (existsb (String.eqb k) cols) eqn:E; [exact Hnd|].
  apply NoDup_app; [exact Hnd|repeat constructor; intros []|].
  intros x Hx [Hk|[]]. subst x.
  assert (existsb (String.eqb k) cols = true); [|congruence].
  apply existsb_exists. exists k. split; [exact Hx|apply String.eqb_refl].
Qed.

Lemma add_columns_In ks : forall cols x,
  In x (fold_left add_column ks cols) <-> In x cols \/ In x ks.
Proof.
  induction ks as [|k ks IH]; intros cols x; cbn.
  - intuition.
  - rewrite IH, add_column_In. intuition.
Qed.

Lemma add_columns_NoDup ks : forall cols,
  NoDup cols -> NoDup (fold_left add_column ks cols).
Proof.
  induction ks as [|k ks IH]; intros cols H; cbn; [exact H|].
  apply IH, add_column_NoDup, H.
Qed.

Lemma union_columns_from ds : forall cols x,
  In x (fold_left (fun cols d => fold_left add_column (keys d) cols) ds cols)
  <-> In x cols \/ exists d, In d ds /\ In x (keys d).
Proof.
  induction ds as [|d ds IH]; intros cols x; cbn.
  - split; [auto|]. intros [H|(d & [] & _)]; exact H.
  - rewrite IH, add_columns_In. split.
    + intros [[H|H]|(d' & Hin & H)]; eauto.
    + intros [H|(d' & [<-|Hin] & H)]; eauto.
Qed.

Lemma union_columns_In ds x :
  In x (union_columns ds) <-> exists d, In d ds /\ In x (keys d).
Proof.
  unfold union_columns. rewrite union_columns_from. cbn. intuition.
Qed.

Lemma union_columns_NoDup ds : NoDup (union_columns ds).
Proof.
  unfold union_columns. generalize (NoDup_nil string).
  generalize (@nil string) as cols.
  induction ds as [|d ds IH]; intros cols H; cbn; [exact H|].
  apply IH, add_columns_NoDup, H.
Qed.

Lemma lookup_None k d : lookup k d = None <-> ~ In k (keys d).
Proof.
  induction d as [|[k' v] d IH]; cbn; [intuition|].
  destruct (String.eqb_spec k k') as [->|Hne].
  - split; [discriminate|]. intros H. exfalso. auto.
  - rewrite IH. intuition.
Qed.

(** A cell of the frame is the value the row's dict has under the column
    label. *)
Lemma cell_DataFrame_of_dicts ds i d col :
  nth_error ds i = Some d ->
  In col (union_columns ds) ->
  cell (DataFrame_of_dicts ds) i col = lookup col d.
Proof.
  intros Hd Hcol. unfold cell, DataFrame_of_dicts. cbn [rows columns].
  rewrite nth_error_map, Hd. cbn [option_map].
  induction (union_columns ds) as [|c cols IH]; [destruct Hcol|].
  cbn [map]. destruct (String.eqb_spec col c) as [->|Hne]; [reflexivity|].
  apply IH. destruct Hcol as [->|H]; [contradiction|exact H].
Qed.

Lemma all_dicts_records (records : list dict) :
  all_dicts (map simple_json_normalize (map VDict records))
  = Some (map normalise_json_ordered records).
Proof.
  induction records as [|d records IH]; [reflexivity|].
  cbn. cbn in IH. rewrite IH. reflexivity.
Qed.

(** C7: for a non-empty sequence of records that are objects, the exporter
    writes the table of the flattened records: its columns are the keys of
    all flattened records, each once, and the cell of a record in a column
    is the record's value under that key, or empty when the record lacks
    it.  The keys of a flattened record are the dotted paths of its leaves
    (for a record whose top-level keys are not empty strings). *)
Theorem exported_table (w : world) (records : list dict)
    (output_file : string) (s : state) :
  records <> [] ->
  let data := map VDict records in
  let df := DataFrame_of_dicts (map normalise_json_ordered records) in
  json_normalize w data = inr df /\
  (to_csv w output_file df = None ->
   write_to_csv_with_pandas w data output_file s =
   (inr tt,
    {| sent := sent s;
       log := log s ++
              [{| name := Root; levelname := INFO;
                  msg := [Lit "Data successfully written to ";
                          Val (VStr output_file)] |}];
       fs := fs s ++ [Written output_file df] |})) /\
  NoDup (columns df) /\
  List.length (rows df) = List.length records /\
  (forall col,
      In col (columns df) <->
      exists record,
        In record records /\ In col (keys (normalise_json_ordered record))) /\
  (forall i record col,
      nth_error records i = Some record ->
      In col (columns df) ->
      cell df i col = lookup col (normalise_json_ordered record) /\
      (~ In col (keys (normalise_json_ordered record)) ->
       cell df i col = None)) /\
  (forall record col,
      In record records ->
      Forall (fun kv => fst kv <> ""%string) record ->
      In col (keys (normalise_json_ordered record)) <->
      In col (spec_columns record)).
Proof.
  intros _ data df.
  assert (Hnorm : json_normalize w data = inr df).
  { unfold json_normalize, data. now rewrite all_dicts_records. }
  split; [exact Hnorm|]. split; [|split; [|split; [|split; [|split]]]].
  - intros Hcsv. unfold write_to_csv_with_pandas.
    rewrite Hnorm, Hcsv. reflexivity.
  - apply union_columns_NoDup.
  - cbn. now rewrite !length_map.
  - intros col. cbn [df DataFrame_of_dicts columns].
    rewrite union_columns_In. split.
    + intros (d & Hd & Hcol). apply in_map_iff in Hd.
      destruct Hd as (record & <- & Hrecord). exists record. auto.
    + intros (record & Hrecord & Hcol).
      exists (normalise_json_ordered record). split; [now apply in_map|].
      exact Hcol.
  - intros i record col Hrecord Hcol.
    assert (Hcell : cell df i col = lookup col (normalise_json_ordered record)).
    { apply cell_DataFrame_of_dicts; [|exact Hcol].
      now rewrite nth_error_map, Hrecord. }
    split; [exact Hcell|].
    intros Habsent. rewrite Hcell. apply lookup_None, Habsent.
  - intros record col _ Hkeys. apply keys_normalise_json_ordered, Hkeys.
Qed.

(** The two records of the specification's example. *)
Lemma exported_table_witness :
  let records := [[("id", VInt 1); ("name", VStr "A")];
                  [("id", VInt 2); ("stats", VDict [("hp", VInt 10)])]] in
  let df := DataFrame_of_dicts (map normalise_json_ordered records) in
  df = {| columns := ["id"; "name"; "stats.hp"];
          rows := [[Some (VInt 1); Some (VStr "A"); None];
                   [Some (VInt 2); None; Some (VInt 10)]] |} /\
  json_normalize second_fails (map VDict records) = inr df /\
  cell df 1 "name" = None /\
  map spec_columns records = [["id"; "name"]; ["id"; "stats.hp"]].
Proof.
  cbv zeta.
  destruct (exported_table second_fails
              [[("id", VInt 1); ("name", VStr "A")];
               [("id", VInt 2); ("stats", VDict [("hp", VInt 10)])]]
              OUTPUT_FILE initial) as (Hnorm & _ & _ & _ & _ & Hcell & _).
  - discriminate.
  - split; [reflexivity|]. split; [exact Hnorm|]. split; [|reflexivity].
    apply (Hcell 1%nat [("id", VInt 2); ("stats", VDict [("hp", VInt 10)])]
             "name" eq_refl).
    + cbn. auto.
    + cbn. intros [H|[H|[]]]; discriminate H.
Defined.

(** * Further properties *)

(** ** Loading the configuration *)

Lemma configuration_cases (w : world) (config_path output_file : string)
    (s : state) :
  load_config w config_path = inl FileNotFoundError \/
  (exists e, fetch_character_data w config_path output_file s = (inl e, s)) \/
  (exists c, configured w config_path c).
Proof.
  destruct (load_config w config_path) as [e|config] eqn:Hload.
  { destruct e; try (left; reflexivity); right; left; eexists;
      unfold fetch_character_data; rewrite Hload; reflexivity. }
  right.
  destruct (getitem config "auth_url") as [e|v1] eqn:H1;
    [left; exists e; unfold fetch_character_data;
     rewrite Hload, H1; reflexivity|].
  destruct (getitem config "login_data") as [e|v2] eqn:H2;
    [left; exists e; unfold fetch_character_data;
     rewrite Hload, H1, H2; reflexivity|].
  destruct (getitem config "characters_url") as [e|v3] eqn:H3;
    [left; exists e; unfold fetch_character_data;
     rewrite Hload, H1, H2, H3; reflexivity|].
  destruct (getitem config "character_details_url") as [e|v4] eqn:H4;
    [left; exists e; unfold fetch_character_data;
     rewrite Hload, H1, H2, H3, H4; reflexivity|].
  destruct (getitem config "project_id") as [e|v5] eqn:H5;
    [left; exists e; unfold fetch_character_data;
     rewrite Hload, H1, H2, H3, H4, H5; reflexivity|].
  right.
  exists {| cfg_auth_url := v1; cfg_login_data := v2;
            cfg_characters_url := v3; cfg_character_details_url := v4;
            cfg_project_id := v5 |}.
  exists config. repeat split; assumption.
Qed.

(** X1: only a missing file is handled when the configuration is read.
    Any other failure of loading it, a configuration that is not a
    mapping, and a mapping that lacks one of the five keys make the
    function raise (the [KeyError] names the first missing key in the order
    the keys are read), before anything is logged or sent. *)
Theorem configuration_errors_propagate (w : world)
    (config_path output_file : string) (s : state) :
  (forall e,
      load_config w config_path = inl e ->
      e <> FileNotFoundError ->
      fetch_character_data w config_path output_file s = (inl e, s)) /\
  (forall config,
      load_config w config_path = inr config ->
      isinstance_dict config = false ->
      fetch_character_data w config_path output_file s = (inl TypeError, s)) /\
  (forall fields k,
      load_config w config_path = inr (VDict fields) ->
      first_missing fields = Some k ->
      fetch_character_data w config_path output_file s
      = (inl (KeyError k), s)).
Proof.
  split; [|split].
  - intros e Hload Hne. unfold fetch_character_data. rewrite Hload.
    destruct e; try reflexivity. contradiction.
  - intros config Hload Hshape. unfold fetch_character_data. rewrite Hload.
    destruct config; try reflexivity; discriminate Hshape.
  - intros fields k Hload Hmissing. unfold fetch_character_data.
    rewrite Hload. unfold first_missing, required_keys, has_key in Hmissing.
    cbn [find getitem] in *.
    destruct (lookup "auth_url" fields); cbn [negb] in Hmissing;
      [|inversion Hmissing; reflexivity].
    destruct (lookup "login_data" fields); cbn [negb] in Hmissing;
      [|inversion Hmissing; reflexivity].
    destruct (lookup "characters_url" fields); cbn [negb] in Hmissing;
      [|inversion Hmissing; reflexivity].
    destruct (lookup "character_details_url" fields); cbn [negb] in Hmissing;
      [|inversion Hmissing; reflexivity].
    destruct (lookup "project_id" fields); cbn [negb] in Hmissing;
      [discriminate Hmissing|inversion Hmissing; reflexivity].
Qed.

(** A configuration that stops after [login_data]; and a file that cannot
    be read. *)
Lemma configuration_errors_propagate_witness :
  main (scripted (inr (VDict [("auth_url", VStr "u");
                              ("login_data", VDict [])])) []) initial
  = (inl (KeyError "characters_url"), initial) /\
  main (scripted (inl OSError) []) initial = (inl OSError, initial).
Proof.
  split.
  - destruct (configuration_errors_propagate
                (scripted (inr (VDict [("auth_url", VStr "u");
                                       ("login_data", VDict [])])) [])
                CONFIG_PATH OUTPUT_FILE initial) as (_ & _ & missing).
    apply (missing _ "characters_url" eq_refl eq_refl).
  - destruct (configuration_errors_propagate (scripted (inl OSError) [])
                CONFIG_PATH OUTPUT_FILE initial) as (other & _).
    apply (other OSError eq_refl). discriminate.
Defined.

(** ** Authentication *)

(** X2: a request that gets no response is not handled.  When the
    authentication request, or after it the character-list request, fails
    in the transport, that exception leaves the function; the request
    counts as sent, nothing is logged about the failure and no file is
    touched. *)
Theorem unanswered_request_raises (w : world)
    (config_path output_file : string) (c : settings) (s : state) :
  configured w config_path c ->
  (forall e,
      send w (sent s) (auth_request c) = inl e ->
      fetch_character_data w config_path output_file s =
      (inl (RequestException e),
       {| sent := sent s ++ [auth_request c];
          log := log s ++ [authenticating_record];
          fs := fs s |})) /\
  (forall token rq e,
      authenticated w c (sent s) token ->
      list_request w c token = inr rq ->
      send w (sent s ++ [auth_request c]) rq = inl e ->
      fetch_character_data w config_path output_file s =
      (inl (RequestException e),
       {| sent := sent s ++ [auth_request c; rq];
          log := log s ++ [authenticating_record; fetching_ids_record];
          fs := fs s |})).
Proof.
  intros Hc. split.
  - intros e Hsend.
    rewrite (run_configured w config_path output_file c s Hc).
    cbv zeta. rewrite Hsend. reflexivity.
  - intros token rq e Ha Hrq Hsend.
    rewrite (run_authenticated w config_path output_file c token s Hc Ha).
    cbv zeta. cbn [sent log fs]. rewrite Hrq, Hsend.
    rewrite <- app_assoc. reflexivity.
Qed.

Lemma unanswered_request_raises_witness :
  main (scripted (inr sample_config) [inl ConnectionError]) initial =
  (inl (RequestException ConnectionError),
   {| sent := [auth_request sample_settings];
      log := [authenticating_record];
      fs := [] |}) /\
  fst (main (list_answer (inl ReadTimeout)) initial)
  = inl (RequestException ReadTimeout).
Proof.
  split.
  - destruct (unanswered_request_raises
                (scripted (inr sample_config) [inl ConnectionError])
                CONFIG_PATH OUTPUT_FILE sample_settings initial
                (sample_configured _ _)) as [auth _].
    apply (auth ConnectionError eq_refl).
  - destruct (unanswered_request_raises (list_answer (inl ReadTimeout))
                CONFIG_PATH OUTPUT_FILE sample_settings initial
                (sample_configured _ _)) as [_ list].
    unfold main.
    rewrite (list (VStr "T0K3N") _ ReadTimeout (list_answer_authenticated _)
               eq_refl eq_refl).
    reflexivity.
Defined.

(** X3: an authentication body that decodes to something other than an
    object (a list, a string, a number, null) is not handled: [.get] raises
    [AttributeError], which the [except ValueError] around it does not
    catch, so the function raises after the one request. *)
Theorem non_object_authentication_body_raises (w : world)
    (config_path output_file : string) (c : settings) (s : state)
    (r : response) (body : value) :
  configured w config_path c ->
  send w (sent s) (auth_request c) = inr r ->
  raises_for_status r = false ->
  json r = Some body ->
  isinstance_dict body = false ->
  fetch_character_data w config_path output_file s =
  (inl (AttributeError "get"),
   {| sent := sent s ++ [auth_request c];
      log := log s ++ [authenticating_record];
      fs := fs s |}).
Proof.
  intros Hc Hsend Hstatus Hjson Hshape.
  rewrite (run_configured w config_path output_file c s Hc).
  cbv zeta. rewrite Hsend, Hstatus, Hjson.
  destruct body; try reflexivity; discriminate Hshape.
Qed.

Lemma non_object_authentication_body_raises_witness :
  fst (main (scripted (inr sample_config)
               [json_response 200 (VList [VStr "T0K3N"])]) initial)
  = inl (AttributeError "get").
Proof.
  unfold main.
  rewrite (non_object_authentication_body_raises
             (scripted (inr sample_config)
                [json_response 200 (VList [VStr "T0K3N"])])
             CONFIG_PATH OUTPUT_FILE sample_settings initial _ _
             (sample_configured _ _) eq_refl eq_refl eq_refl eq_refl).
  reflexivity.
Defined.

(** X4: when the authentication response has a 4xx/5xx status, the
    response is falsy, so the two records meant to show its status code and
    its content both show the text [No response] instead; the status is
    only visible inside the logged [HTTPError]. *)
Theorem rejected_authentication_logs_no_response (w : world)
    (config_path output_file : string) (c : settings) (s : state)
    (r : response) :
  configured w config_path c ->
  send w (sent s) (auth_request c) = inr r ->
  raises_for_status r = true ->
  fetch_character_data w config_path output_file s =
  (inr tt,
   {| sent := sent s ++ [auth_request c];
      log := log s ++
             [authenticating_record;
              module_record ERROR [Lit "Authentication failed: ";
                                   Err (HTTPError r)];
              module_record ERROR [Lit "Status code: ";
                                   Val (VStr "No response")];
              module_record ERROR [Lit "Response content: ";
                                   Val (VStr "No response")]];
      fs := fs s |}).
Proof.
  intros Hc Hsend Hstatus.
  rewrite (run_configured w config_path output_file c s Hc).
  cbv zeta. rewrite Hsend, Hstatus. cbn [sent log fs].
  rewrite <- app_assoc. reflexivity.
Qed.

Lemma rejected_authentication_logs_no_response_witness :
  map msg (log (snd (main (scripted (inr sample_config)
                             [text_response 401 "Unauthorized"]) initial)))
  = [[Lit "Authenticating..."];
     [Lit "Authentication failed: ";
      Err (HTTPError {| status_code := 401; text := "Unauthorized";
                        json := None |})];
     [Lit "Status code: "; Val (VStr "No response")];
     [Lit "Response content: "; Val (VStr "No response")]].
Proof.
  unfold main.
  rewrite (rejected_authentication_logs_no_response
             (scripted (inr sample_config) [text_response 401 "Unauthorized"])
             CONFIG_PATH OUTPUT_FILE sample_settings initial _
             (sample_configured _ _) eq_refl eq_refl).
  reflexivity.
Defined.

(** ** The character list *)

(** X5: a character-list response with a 4xx/5xx status is logged, with the
    HTTP error and the response text, and ends the run normally after the
    two requests; no detail is fetched and no file is touched. *)
Theorem list_fetch_failure (w : world)
    (config_path output_file : string) (c : settings) (token : value)
    (rq : request) (r : response) (s : state) :
  configured w config_path c ->
  authenticated w c (sent s) token ->
  listed w c (sent s) token rq r ->
  raises_for_status r = true ->
  fetch_character_data w config_path output_file s =
  (inr tt,
   {| sent := sent s ++ [auth_request c; rq];
      log := log s ++
             [authenticating_record; fetching_ids_record;
              module_record ERROR [Lit "Failed to fetch character IDs: ";
                                   Err (HTTPError r)];
              module_record ERROR [Lit "Response content: ";
                                   Val (VStr (text r))]];
      fs := fs s |}).
Proof.
  intros Hc Ha [Hrq Hsend] Hstatus.
  rewrite (run_authenticated w config_path output_file c token s Hc Ha).
  cbv zeta. cbn [sent log fs]. rewrite Hrq, Hsend, Hstatus.
  rewrite <- !app_assoc. reflexivity.
Qed.

Lemma list_fetch_failure_witness :
  let w := list_answer (text_response 403 "Forbidden") in
  fst (main w initial) = inr tt /\
  fs (snd (main w initial)) = [] /\
  map levelname (log (snd (main w initial))) = [INFO; INFO; ERROR; ERROR].
Proof.
  cbv zeta. unfold main.
  rewrite (list_fetch_failure (list_answer (text_response 403 "Forbidden"))
             CONFIG_PATH OUTPUT_FILE sample_settings (VStr "T0K3N") _ _
             initial (sample_configured _ _) (list_answer_authenticated _)
             (list_answer_listed _ _ eq_refl) eq_refl).
  repeat split.
Defined.

(** X6: the body of the character list is decoded outside any [try]: when
    the response passes the status check but its body is not JSON, the
    [ValueError] leaves the function, unlike the same failure on the
    authentication body or on a detail body. *)
Theorem undecodable_list_body_raises (w : world)
    (config_path output_file : string) (c : settings) (token : value)
    (rq : request) (r : response) (s : state) :
  configured w config_path c ->
  authenticated w c (sent s) token ->
  listed w c (sent s) token rq r ->
  raises_for_status r = false ->
  json r = None ->
  fetch_character_data w config_path output_file s =
  (inl ValueError,
   {| sent := sent s ++ [auth_request c; rq];
      log := log s ++ [authenticating_record; fetching_ids_record];
      fs := fs s |}).
Proof.
  intros Hc Ha [Hrq Hsend] Hstatus Hjson.
  rewrite (run_authenticated w config_path output_file c token s Hc Ha).
  cbv zeta. cbn [sent log fs]. rewrite Hrq, Hsend, Hstatus, Hjson.
  rewrite <- !app_assoc. reflexivity.
Qed.

Lemma undecodable_list_body_raises_witness :
  fst (main (list_answer (text_response 200 "<html>")) initial)
  = inl ValueError.
Proof.
  unfold main.
  rewrite (undecodable_list_body_raises
             (list_answer (text_response 200 "<html>"))
             CONFIG_PATH OUTPUT_FILE sample_settings (VStr "T0K3N") _ _
             initial (sample_configured _ _) (list_answer_authenticated _)
             (list_answer_listed _ _ eq_refl) eq_refl eq_refl).
  reflexivity.
Defined.

(** ** The detail loop *)

Lemma fetch_details_app_eq (w : world)
    (character_details_url project_id : value)
    (auth_headers : list (string * string)) (first second : list value) :
  forall acc s,
    fetch_details w character_details_url project_id auth_headers
      (first ++ second) acc s =
    match fetch_details w character_details_url project_id auth_headers
            first acc s with
    | (inr collected, s1) =>
        fetch_details w character_details_url project_id auth_headers
          second collected s1
    | (inl e, s1) => (inl e, s1)
    end.
Proof.
  induction first as [|character rest IH]; intros acc s; [reflexivity|].
  rewrite <- app_comm_cons.
  destruct character as [| | | | |fields]; try reflexivity.
  rewrite !fetch_details_cons. cbv zeta.
  destruct (truthy _); [|apply IH].
  destruct (detail_request _ _ _ _ _) as [e|rq]; [reflexivity|].
  destruct (send w (sent s) rq) as [e|r]; [reflexivity|].
  destruct (classify _ rq r); apply IH.
Qed.

(** X7: the loop composes: running it over two lists laid end to end is
    running it over the first and then, from the records and the state
    reached, over the second; an exception in the first part ends the
    whole. *)
Theorem fetch_details_app (w : world)
    (character_details_url project_id : value)
    (auth_headers : list (string * string)) (first second : list value)
    (all_character_data : list value) (s : state) :
  fetch_details w character_details_url project_id auth_headers
    (first ++ second) all_character_data s =
  match fetch_details w character_details_url project_id auth_headers
          first all_character_data s with
  | (inr collected, s1) =>
      fetch_details w character_details_url project_id auth_headers
        second collected s1
  | (inl e, s1) => (inl e, s1)
  end.
Proof. apply fetch_details_app_eq. Qed.

(** X8: a summary that is not an object is not skipped: [.get] raises
    [AttributeError] and the loop ends there, whatever was collected from
    the summaries before it and whatever comes after. *)
Theorem non_object_summary_aborts (w : world)
    (character_details_url project_id : value)
    (auth_headers : list (string * string))
    (before after : list value) (character : value)
    (all_character_data collected : list value) (s s1 : state) :
  isinstance_dict character = false ->
  fetch_details w character_details_url project_id auth_headers before
    all_character_data s = (inr collected, s1) ->
  fetch_details w character_details_url project_id auth_headers
    (before ++ character :: after) all_character_data s
  = (inl (AttributeError "get"), s1).
Proof.
  intros Hshape Hbefore. rewrite fetch_details_app_eq, Hbefore.
  destruct character; try reflexivity; discriminate Hshape.
Qed.

(** The second summary of three is a bare number. *)
Lemma non_object_summary_aborts_witness :
  fst (fetch_details details_second_fails details_template (VInt 42) []
         [summary 1; VInt 2; summary 3] [] initial)
  = inl (AttributeError "get").
Proof.
  change [summary 1; VInt 2; summary 3]
    with ([summary 1] ++ VInt 2 :: [summary 3]).
  erewrite (non_object_summary_aborts details_second_fails details_template
              (VInt 42) [] [summary 1] [summary 3] (VInt 2) [] _ initial _
              eq_refl eq_refl).
  reflexivity.
Defined.

(** X15: a detail request that gets no response is not skipped either:
    the exception ends the loop, after the request was sent, whatever was
    collected from the summaries before it. *)
Theorem unanswered_detail_request_aborts (w : world)
    (character_details_url project_id : value)
    (auth_headers : list (string * string))
    (before after : list value) (fields : list (string * value))
    (character_id : value) (rq : request) (e : send_error)
    (all_character_data collected : list value) (s s1 : state) :
  fetch_details w character_details_url project_id auth_headers before
    all_character_data s = (inr collected, s1) ->
  lookup "characterId" fields = Some character_id ->
  truthy character_id = true ->
  detail_request w character_details_url project_id auth_headers
    character_id = inr rq ->
  send w (sent s1) rq = inl e ->
  fetch_details w character_details_url project_id auth_headers
    (before ++ VDict fields :: after) all_character_data s
  = (inl (RequestException e),
     {| sent := sent s1 ++ [rq];
        log := log s1 ++ [fetching_record character_id];
        fs := fs s1 |}).
Proof.
  intros Hbefore Hid Htruthy Hrq Hsend.
  rewrite fetch_details_app_eq, Hbefore, fetch_details_cons. cbv zeta.
  rewrite Hid, Htruthy, Hrq, Hsend. reflexivity.
Qed.

(** The first detail is fetched, the second request times out. *)
Lemma unanswered_detail_request_aborts_witness :
  fst (fetch_details
         (scripted (inr sample_config)
            [json_response 200 record_1; inl ReadTimeout])
         details_template (VInt 42) []
         [summary 1; summary 2; summary 3] [] initial)
  = inl (RequestException ReadTimeout).
Proof.
  change [summary 1; summary 2; summary 3]
    with ([summary 1] ++ VDict [("characterId", VInt 2)] :: [summary 3]).
  erewrite (unanswered_detail_request_aborts
              (scripted (inr sample_config)
                 [json_response 200 record_1; inl ReadTimeout])
              details_template (VInt 42) [] [summary 1] [summary 3]
              [("characterId", VInt 2)] (VInt 2) _ ReadTimeout [] _ initial _
              eq_refl eq_refl eq_refl eq_refl eq_refl).
  reflexivity.
Defined.

Lemma fetch_details_bounds (w : world)
    (character_details_url project_id : value)
    (auth_headers : list (string * string)) (characters : list value) :
  forall acc s result s',
    fetch_details w character_details_url project_id auth_headers
      characters acc s = (result, s') ->
    exists new,
      sent s' = sent s ++ new /\
      (List.length new <= List.length characters)%nat /\
      forall collected,
        result = inr collected ->
        exists more,
          collected = acc ++ more /\
          (List.length more <= List.length new)%nat.
Proof.
  induction characters as [|character rest IH]; intros acc s result s' H.
  - cbn in H. inversion H; subst. exists []. rewrite app_nil_r.
    split; [reflexivity|]. split; [apply le_n|].
    intros collected Hc. inversion Hc. exists [].
    rewrite app_nil_r. split; [reflexivity|apply le_n].
  - assert (stop : forall (s1 : state) e new,
              sent s1 = sent s ++ new ->
              (List.length new <= 1)%nat ->
              (result, s') = (inl e, s1) ->
              exists new,
                sent s' = sent s ++ new /\
                (List.length new <= List.length (character :: rest))%nat /\
                forall collected,
                  result = inr collected ->
                  exists more,
                    collected = acc ++ more /\
                    (List.length more <= List.length new)%nat).
    { intros s1 e new Hs1 Hlen E. inversion E; subst. exists new.
      split; [exact Hs1|]. split; [cbn; lia|].
      intros collected Hc. discriminate Hc. }
    destruct character as [| | | | |fields];
      try (cbn in H; refine (stop _ _ [] _ _ (eq_sym H));
           [now rewrite app_nil_r|cbn; lia]).
    rewrite fetch_details_cons in H. cbv zeta in H.
    destruct (truthy _).
    + destruct (detail_request _ _ _ _ _) as [e|rq].
      { refine (stop _ _ [] _ _ (eq_sym H)); [|cbn; lia].
        cbn. now rewrite app_nil_r. }
      destruct (send w (sent s) rq) as [e|r].
      { refine (stop _ _ [rq] _ _ (eq_sym H)); [reflexivity|cbn; lia]. }
      destruct (classify _ rq r) eqn:Ecl; apply IH in H;
        destruct H as (new & Hsent & Hlen & Hcollected);
        cbn [sent] in Hsent; exists (rq :: new);
        (split; [rewrite Hsent, <- app_assoc; reflexivity|]);
        (split; [cbn; lia|]);
        intros collected Hc; destruct (Hcollected collected Hc)
          as (more & -> & Hmore).
      * exists more. split; [reflexivity|cbn; lia].
      * exists more. split; [reflexivity|cbn; lia].
      * exists more. split; [reflexivity|cbn; lia].
      * exists (record :: more). rewrite <- app_assoc.
        split; [reflexivity|cbn; lia].
    + apply IH in H. destruct H as (new & Hsent & Hlen & Hcollected).
      cbn [sent] in Hsent. exists new. split; [exact Hsent|].
      split; [cbn; lia|exact Hcollected].
Qed.

(** X9: nothing is retried and nothing is invented: however the loop ends,
    it has sent at most one request per summary, left the file system
    alone, and, when it returns, added at most one record per request it
    sent to the records it started from. *)
Theorem one_request_per_summary (w : world)
    (character_details_url project_id : value)
    (auth_headers : list (string * string)) (characters : list value)
    (all_character_data : list value) (s : state) :
  let '(result, s') :=
    fetch_details w character_details_url project_id auth_headers
      characters all_character_data s in
  fs s' = fs s /\
  exists new,
    sent s' = sent s ++ new /\
    (List.length new <= List.length characters)%nat /\
    forall collected,
      result = inr collected ->
      exists more,
        collected = all_character_data ++ more /\
        (List.length more <= List.length new)%nat.
Proof.
  destruct (fetch_details _ _ _ _ _ _ _) as [result s'] eqn:H.
  split.
  - apply fetch_details_frame in H. destruct H as [(Hfs & _) _]. exact Hfs.
  - eapply fetch_details_bounds, H.
Qed.

(** ** The exporter *)

Lemma write_to_csv_with_pandas_effect (w : world) (data : list value)
    (output_file : string) (s : state) :
  exists record events,
    write_to_csv_with_pandas w data output_file s =
    (inr tt,
     {| sent := sent s; log := log s ++ [record]; fs := fs s ++ events |}) /\
    name record = Root /\
    ((events = [] /\ levelname record = ERROR /\
      exists e, json_normalize w data = inl e) \/
     (exists df e,
         events = [WriteFailed output_file e] /\ levelname record = ERROR /\
         json_normalize w data = inr df /\
         to_csv w output_file df = Some e) \/
     (exists df,
         events = [Written output_file df] /\ levelname record = INFO /\
         json_normalize w data = inr df /\
         to_csv w output_file df = None)).
Proof.
  unfold write_to_csv_with_pandas.
  destruct (json_normalize w data) as [e|df]; monad_simpl.
  - eexists. exists []. rewrite app_nil_r.
    split; [reflexivity|]. split; [reflexivity|]. left. eauto.
  - destruct (to_csv w output_file df) as [e|] eqn:Hcsv;
      unfold record_fs, bind; cbn; do 2 eexists;
      (split; [reflexivity|split; [reflexivity|]]).
    + right. left. exists df, e. auto.
    + right. right. exists df. auto.
Qed.

(** X10: the exporter never raises and never sends anything.  It logs
    exactly one record, through the root logger; it touches at most one
    file, [output_file]; and it logs success exactly when the table that
    [json_normalize] built from [data] was written. *)
Theorem exporter_never_raises (w : world) (data : list value)
    (output_file : string) (s : state) :
  exists record events,
    write_to_csv_with_pandas w data output_file s =
    (inr tt,
     {| sent := sent s; log := log s ++ [record]; fs := fs s ++ events |}) /\
    name record = Root /\
    ((events = [] /\ levelname record = ERROR /\
      exists e, json_normalize w data = inl e) \/
     (exists df e,
         events = [WriteFailed output_file e] /\ levelname record = ERROR /\
         json_normalize w data = inr df /\
         to_csv w output_file df = Some e) \/
     (exists df,
         events = [Written output_file df] /\ levelname record = INFO /\
         json_normalize w data = inr df /\
         to_csv w output_file df = None)).
Proof. apply write_to_csv_with_pandas_effect. Qed.

(** X11: the records the loop collected, all of them and in that order, are
    what the exporter gets, as the last step of the run; when the table is
    built and written, the run ends normally with that one file written
    and the success record last in the log. *)
Theorem collected_records_are_exported (w : world)
    (config_path output_file : string) (c : settings) (token : value)
    (rq : request) (r : response) (items : list value)
    (record : value) (more : list value) (s s' : state) :
  configured w config_path c ->
  authenticated w c (sent s) token ->
  listed w c (sent s) token rq r ->
  raises_for_status r = false ->
  json r = Some (VList items) ->
  fetch_details w (cfg_character_details_url c) (cfg_project_id c)
    (bearer w token) items []
    {| sent := sent s ++ [auth_request c; rq];
       log := log s ++ [authenticating_record; fetching_ids_record];
       fs := fs s |} = (inr (record :: more), s') ->
  fetch_character_data w config_path output_file s =
  write_to_csv_with_pandas w (record :: more) output_file s' /\
  forall df,
    json_normalize w (record :: more) = inr df ->
    to_csv w output_file df = None ->
    fetch_character_data w config_path output_file s =
    (inr tt,
     {| sent := sent s';
        log := log s' ++
               [{| name := Root; levelname := INFO;
                   msg := [Lit "Data successfully written to ";
                           Val (VStr output_file)] |}];
        fs := fs s ++ [Written output_file df] |}).
Proof.
  intros Hc Ha [Hrq Hsend] Hstatus Hjson Hloop.
  assert (Hrun : fetch_character_data w config_path output_file s =
                 write_to_csv_with_pandas w (record :: more) output_file s').
  { rewrite (run_authenticated w config_path output_file c token s Hc Ha).
    cbv zeta. cbn [sent log fs]. rewrite Hrq, Hsend, Hstatus, Hjson.
    rewrite <- !app_assoc. cbn [app].
    destruct items as [|character rest]; [discriminate Hloop|].
    rewrite Hloop. reflexivity. }
  split; [exact Hrun|].
  intros df Hnorm Hcsv. rewrite Hrun. unfold write_to_csv_with_pandas.
  rewrite Hnorm, Hcsv.
  apply fetch_details_frame in Hloop. destruct Hloop as [(Hfs & _) _].
  cbn [fs] in Hfs. unfold record_fs, bind, logging_info, emit. cbn.
  rewrite Hfs. reflexivity.
Qed.

Lemma second_fails_listed :
  listed second_fails sample_settings [] (VStr "T0K3N")
    {| meth := GET;
       url := VStr "https://joinrpg.ru/x-game-api/42/characters";
       data := None;
       headers := [("Authorization", "Bearer T0K3N")] |}
    {| status_code := 200; text := "<json>";
       json := Some (VList [summary 1; summary 2; summary 3]) |}.
Proof. split; reflexivity. Qed.

Lemma second_fails_authenticated :
  authenticated second_fails sample_settings [] (VStr "T0K3N").
Proof. do 2 eexists. repeat split. Qed.

Lemma collected_records_are_exported_witness :
  fs (snd (main second_fails initial)) =
  [Written "output.csv"
     {| columns := ["id"; "name"; "stats.hp"];
        rows := [[Some (VInt 1); Some (VStr "A"); None];
                 [Some (VInt 3); None; Some (VInt 10)]] |}].
Proof.
  destruct (collected_records_are_exported second_fails CONFIG_PATH
              OUTPUT_FILE sample_settings (VStr "T0K3N") _ _ _ _ _ initial _
              (sample_configured _ _) second_fails_authenticated
              second_fails_listed eq_refl eq_refl eq_refl) as [_ written].
  unfold main. rewrite (written _ eq_refl eq_refl). reflexivity.
Defined.

(** ** What a run does to the file system *)

Lemma run_fs_shape (w : world) (config_path output_file : string)
    (s : state) result s' :
  fetch_character_data w config_path output_file s = (result, s') ->
  fs s' = fs s \/
  (result = inr tt /\
   exists ev, fs s' = fs s ++ [ev] /\ event_path ev = output_file).
Proof.
  intros H.
  destruct (configuration_cases w config_path output_file s)
    as [Hmissing|[[e He]|[c Hc]]].
  { rewrite run_without_configuration in H by exact Hmissing.
    inversion H. left. reflexivity. }
  { rewrite He in H. inversion H; subst. left. reflexivity. }
  pose proof (run_configured w config_path output_file c s Hc) as E.
  cbv zeta in E.
  destruct (send w (sent s) (auth_request c)) as [e|r] eqn:Hsend;
    [rewrite E in H; inversion H; left; reflexivity|].
  destruct (raises_for_status r) eqn:Hstatus;
    [rewrite E in H; inversion H; left; reflexivity|].
  destruct (json r) as [body|] eqn:Hjson;
    [|rewrite E in H; inversion H; left; reflexivity].
  destruct (get body "access_token") as [e|token] eqn:Htoken;
    [rewrite E in H; inversion H; left; reflexivity|].
  destruct (truthy token) eqn:Htruthy;
    [|rewrite E in H; inversion H; left; reflexivity].
  clear E.
  assert (Ha : authenticated w c (sent s) token)
    by (exists r, body; repeat split; assumption).
  rewrite (run_authenticated w config_path output_file c token s Hc Ha) in H.
  cbv zeta in H. cbn [sent log fs] in H.
  destruct (list_request w c token) as [e|rq];
    [inversion H; left; reflexivity|].
  destruct (send w (sent s ++ [auth_request c]) rq) as [e|r1];
    [inversion H; left; reflexivity|].
  destruct (raises_for_status r1); [inversion H; left; reflexivity|].
  destruct (json r1) as [characters|]; [|inversion H; left; reflexivity].
  destruct characters as [| | | |items|];
    try (inversion H; left; reflexivity).
  destruct items as [|character rest]; [inversion H; left; reflexivity|].
  destruct (fetch_details _ _ _ _ _ _ _) as [collected s3] eqn:Hloop.
  apply fetch_details_frame in Hloop. destruct Hloop as [(Hfs & _) _].
  cbn [fs] in Hfs.
  destruct collected as [e|[|record more]];
    try (inversion H; subst; left; exact Hfs).
  destruct (write_to_csv_with_pandas_effect w (record :: more) output_file s3)
    as (rec & events & Hw & _ & Hcases).
  rewrite Hw in H. inversion H; subst. cbn [fs]. rewrite Hfs.
  destruct Hcases as [(-> & _)|[(df & e & -> & _)|(df & -> & _)]].
  - left. now rewrite app_nil_r.
  - right. split; [reflexivity|]. eexists. split; reflexivity.
  - right. split; [reflexivity|]. eexists. split; reflexivity.
Qed.

(** X12: whatever the configuration and the API do, a run touches at most
    one file, and that file is [output_file]; a run that raises has not
    touched any. *)
Theorem only_output_file_is_touched (w : world)
    (config_path output_file : string) (s : state) :
  let '(result, s') := fetch_character_data w config_path output_file s in
  (fs s' = fs s \/
   exists ev, fs s' = fs s ++ [ev] /\ event_path ev = output_file) /\
  (forall e, result = inl e -> fs s' = fs s).
Proof.
  destruct (fetch_character_data w config_path output_file s)
    as [result s'] eqn:H.
  destruct (run_fs_shape _ _ _ _ _ _ H) as [Hfs|(Hresult & ev & Hfs & Hev)].
  - split; [left; exact Hfs|intros _ _; exact Hfs].
  - split; [right; exists ev; auto|].
    intros e He. rewrite Hresult in He. discriminate He.
Qed.

(** ** The token *)

(** X13: the value under [access_token] is not checked to be a string.  If
    it is falsy the run stops after the authentication request; otherwise
    every later request carries [Bearer] followed by [str] of that value,
    whatever its type. *)
Theorem token_of_any_type_is_used (w : world)
    (config_path output_file : string) (token : value)
    (first : request) (later : list request)
    (r : response) (body : value) :
  sent (snd (fetch_character_data w config_path output_file initial))
    = first :: later ->
  send w [] first = inr r ->
  json r = Some body ->
  get body "access_token" = inr token ->
  Forall (fun rq => headers rq
                    = [("Authorization", ("Bearer " ++ str w token)%string)])
    later /\
  (truthy token = false -> later = []).
Proof.
  intros Hsent Hsend Hjson Htoken.
  destruct (fetch_character_data w config_path output_file initial)
    as [result s'] eqn:Hrun.
  cbn [snd] in Hsent.
  destruct (run_trace_shape _ _ _ _ _ _ Hrun) as [N|c O|c token' gets A S F];
    cbn [sent initial app] in *.
  - congruence.
  - rewrite O in Hsent. inversion Hsent; subst. split; [constructor|auto].
  - rewrite S in Hsent. inversion Hsent; subst.
    destruct A as (r' & body' & Hsend' & _ & Hjson' & Htoken' & Htruthy).
    assert (token' = token) as -> by congruence.
    split; [|intros Hfalsy; congruence].
    eapply Forall_impl; [|exact F]. intros rq [_ Hh]. exact Hh.
Qed.

(** The token is the number 7. *)
Lemma token_of_any_type_is_used_witness :
  let w := scripted (inr sample_config)
             [json_response 200 (VDict [("access_token", VInt 7)]);
              json_response 200 (VList [])] in
  List.length (sent (snd (main w initial))) = 2%nat /\
  Forall (fun rq => headers rq = [("Authorization", "Bearer 7")])
    (tl (sent (snd (main w initial)))).
Proof.
  cbv zeta. split; [reflexivity|].
  apply (token_of_any_type_is_used
           (scripted (inr sample_config)
              [json_response 200 (VDict [("access_token", VInt 7)]);
               json_response 200 (VList [])])
           CONFIG_PATH OUTPUT_FILE (VInt 7) _ _ _ _
           eq_refl eq_refl eq_refl eq_refl).
Defined.
